(** * MDLH lakehouse scripts: a shallow embedding and its properties

    Two operational scripts are modelled here:

    - [src/snowflake/mdlh-table-maintenance/MDLH_table_refresh_repair.py]
      (module [Snowflake]): the stale-table detector and the repair executor;
    - [src/databricks/mdlh-setup/databricks_create_mdlh_setup.py]
      (module [Databricks]): the Polaris to Unity Catalog sync.

    Both scripts are orchestration code around external collaborators (a
    Snowpark session, a pyiceberg catalog, a Spark session).  A collaborator
    is a [Variable] of a [Section]: a transition function on an abstract
    state that either returns a value or raises.  The Python code itself is
    written in a small monad that threads that state, records the calls it
    makes and propagates exceptions, with [try_except] for the [try] blocks. *)

From Stdlib Require Import List String Ascii ZArith Lia Bool DecimalString.
Import ListNotations.
Open Scope string_scope.

(** ** Python values shared by the two scripts *)
Module Py.

(** An instance of a subclass of [Exception]: its class name and [str(e)]. *)
Record exn : Type := mk_exn { exn_class : string; exn_str : string }.

(** What a call does: it returns a value or raises. *)
Inductive outcome (A : Type) : Type :=
| Returned (a : A)
| Raised (e : exn).
Arguments Returned {A} a.
Arguments Raised {A} e.

(** The dynamically typed values found in a result row. *)
Inductive value : Type :=
| VNone
| VStr (s : string)
| VInt (z : Z)
| VTimestamp (t : Z).

(** [str(n)] for an [int]. *)
Definition str_int (z : Z) : string := NilZero.string_of_int (Z.to_int z).

(** [s.startswith(p)]. *)
Definition startswith (s p : string) : bool := String.prefix p s.

(** The one-character strings of the two quote characters. *)
Definition dquote : string := String (ascii_of_nat 34) EmptyString.
Definition squote : string := String (ascii_of_nat 39) EmptyString.
Definition newline : string := String (ascii_of_nat 10) EmptyString.

(** [s.replace] of the single quote by two of them. *)
Fixpoint replace_squote (s : string) : string :=
  match s with
  | EmptyString => EmptyString
  | String c rest =>
      if Ascii.eqb c (ascii_of_nat 39)
      then squote ++ squote ++ replace_squote rest
      else String c (replace_squote rest)
  end.

(** [t[i]] for a tuple and a non-negative literal index. *)
Definition tuple_index {A : Type} (t : list A) (i : nat) : outcome A :=
  match nth_error t i with
  | Some v => Returned v
  | None => Raised (mk_exn "IndexError" "tuple index out of range")
  end.

(** The list a loop builds by appending [f a] for each [a], unless a step
    raises. *)
Fixpoint collect {A B : Type} (f : A -> outcome B) (l : list A) : outcome (list B) :=
  match l with
  | [] => Returned []
  | a :: rest =>
      match f a with
      | Raised e => Raised e
      | Returned b =>
          match collect f rest with
          | Raised e => Raised e
          | Returned bs => Returned (b :: bs)
          end
      end
  end.

End Py.

(** ** MDLH_table_refresh_repair.py *)
Module Snowflake.
Import Py.

(** A result row after [tuple(row)]. *)
Definition row : Type := list value.

(** What the script does to the outside: evaluations of
    [conn.sql(query).collect()] on the session object and calls to the
    Streamlit widgets. *)
Inductive event : Type :=
| EvSql (query : string)
| EvStError (msg : string)
| EvStatusText (msg : string)
| EvProgress (done total : nat).

(** The dict built per row by [find_stale_tables]. *)
Record StaleTable : Type := mk_stale {
  table_name : value;
  last_altered : value;
  row_count : value;
  database : string;
  schema : string
}.

(** The dict appended per table by the repair loop of [main]
    (keys table_name, success and message). *)
Record RepairOutcome : Type := mk_outcome {
  repaired_table : string;
  success : bool;
  message : string
}.

(** The quoting expression written inline at lines 93, 117 and 157-159:
    [x] is kept when it starts with a double quote and is wrapped in a pair
    of double quotes otherwise. *)
Definition quote_ident (x : string) : string :=
  if negb (startswith x dquote) then dquote ++ x ++ dquote else x.

(** The f-string of [list_schemas] (lines 96-100). *)
Definition schemata_query (database_quoted : string) : string :=
  newline ++
  "        SELECT DISTINCT SCHEMA_NAME " ++ newline ++
  "        FROM " ++ database_quoted ++ ".INFORMATION_SCHEMA.SCHEMATA" ++ newline ++
  "        ORDER BY SCHEMA_NAME" ++ newline ++
  "        ".

(** The f-string of [find_stale_tables] (lines 124-134). *)
Definition stale_query (database_quoted schema_escaped : string) (days_threshold : Z)
  : string :=
  newline ++
  "        SELECT" ++ newline ++
  "            TABLE_NAME," ++ newline ++
  "            LAST_ALTERED," ++ newline ++
  "            ROW_COUNT" ++ newline ++
  "        FROM " ++ database_quoted ++ ".INFORMATION_SCHEMA.TABLES" ++ newline ++
  "        WHERE TABLE_SCHEMA = '" ++ schema_escaped ++ "'" ++ newline ++
  "          AND ROW_COUNT > 0" ++ newline ++
  "          AND LAST_ALTERED < DATEADD(day, -" ++ str_int days_threshold ++
  ", CURRENT_TIMESTAMP())" ++ newline ++
  "        ORDER BY LAST_ALTERED DESC" ++ newline ++
  "        ".

(** The two statements of [repair_table] (lines 162 and 166). *)
Definition iceberg_table (database schema table_name : string) : string :=
  "ALTER ICEBERG TABLE " ++ quote_ident database ++ "." ++ quote_ident schema ++ "."
  ++ quote_ident table_name.

Definition refresh_query (database schema table_name : string) : string :=
  iceberg_table database schema table_name ++ " REFRESH".

Definition auto_refresh_query (database schema table_name : string) : string :=
  iceberg_table database schema table_name ++ " SET AUTO_REFRESH = TRUE".

(** The [st.error] of [execute_query] (line 86). *)
Definition query_error (e : exn) : event :=
  EvStError ("❌ Query execution error: " ++ exn_str e).

(** The [st.error] of [list_schemas] (line 110) and of [find_stale_tables]
    (line 150). *)
Definition schemas_error (e : exn) : event :=
  EvStError ("❌ Error listing schemas: " ++ exn_str e).
Definition stale_error (e : exn) : event :=
  EvStError ("❌ Error finding stale tables: " ++ exn_str e).

(** What the record of a row with at least two columns holds. *)
Definition record_of_row (db sch : string) (r : row) (rec : StaleTable)
  : Prop :=
  tuple_index r 0 = Returned (table_name rec)
  /\ tuple_index r 1 = Returned (last_altered rec)
  /\ ((List.length r < 3)%nat -> row_count rec = VInt 0)
  /\ ((3 <= List.length r)%nat -> tuple_index r 2 = Returned (row_count rec))
  /\ database rec = db
  /\ schema rec = sch.

(** The statements sent, in order. *)
Definition queries_of (tr : list event) : list string :=
  flat_map (fun ev => match ev with EvSql q => [q] | _ => [] end) tr.

(** *** The rest of the app: session state, connection, widgets *)

(** The three keys of [st.session_state] the app uses; [None] is a key
    that is not set. *)
Record session_state : Type := mk_session {
  stale_tables : option (list StaleTable);
  selected_tables : option (list string);
  repair_results : option (list RepairOutcome)
}.

(** [initialize_session_state] (lines 25-32): each key that is missing is
    set to the empty list. *)
Definition initialize_session_state (ss : session_state) : session_state :=
  let ss1 :=
    match stale_tables ss with
    | None => mk_session (Some []) (selected_tables ss) (repair_results ss)
    | Some _ => ss
    end in
  let ss2 :=
    match selected_tables ss1 with
    | None => mk_session (stale_tables ss1) (Some []) (repair_results ss1)
    | Some _ => ss1
    end in
  match repair_results ss2 with
  | None => mk_session (stale_tables ss2) (selected_tables ss2) (Some [])
  | Some _ => ss2
  end.

(** What the three ways to a session do when tried: the import and call of
    [Session.builder.getActive()], the import and call of
    [get_active_session()], whether [st] has the attribute connection, and
    the call of [st.connection]. *)
Record Runtime (Conn : Type) : Type := mk_runtime {
  getActive : outcome (option Conn);
  get_active_session : outcome (option Conn);
  st_has_connection : bool;
  st_connection : outcome Conn
}.
Arguments mk_runtime {Conn} _ _ _ _.
Arguments getActive {Conn} _.
Arguments get_active_session {Conn} _.
Arguments st_has_connection {Conn} _.
Arguments st_connection {Conn} _.

Inductive connect_event : Type :=
| CallGetActive
| CallGetActiveSession
| CallStConnection
| ConnError (msg : string)
| ConnInfo (msg : string).

(** The exception of lines 64-68. *)
Definition could_not_connect : exn :=
  mk_exn "Exception"
    ("Could not establish Snowflake connection. "
     ++ "Please ensure this is running as a native Snowflake Streamlit app. "
     ++ "The app needs access to an active Snowpark session.").

(** The handler of lines 69-72. *)
Definition connection_failed (e : exn) : list connect_event :=
  [ConnError ("❌ Error getting Snowflake connection: " ++ exn_str e);
   ConnInfo
     "💡 This app must be deployed as a native Snowflake Streamlit app to work properly."].

(** [get_snowflake_connection] (lines 34-72); [None] is the Python [None]. *)
Definition get_snowflake_connection {Conn : Type} (rt : Runtime Conn)
  : list connect_event * option Conn :=
  match getActive rt with
  | Returned (Some session) => ([CallGetActive], Some session)
  | _ =>
      match get_active_session rt with
      | Returned (Some session) => ([CallGetActive; CallGetActiveSession], Some session)
      | _ =>
          if st_has_connection rt then
            match st_connection rt with
            | Returned conn =>
                ([CallGetActive; CallGetActiveSession; CallStConnection], Some conn)
            | Raised _ =>
                ((CallGetActive :: CallGetActiveSession :: CallStConnection
                    :: connection_failed could_not_connect)%list, None)
            end
          else
            ((CallGetActive :: CallGetActiveSession
                :: connection_failed could_not_connect)%list, None)
      end
  end.

(** The widgets the buttons draw besides [st.error]. *)
Inductive widget : Type :=
| WDivider
| WHeader (text : string)
| WSuccess (msg : string)
| WWarning (msg : string)
| WTable (rows : list (string * string * string))
| WExpander (label : string)
| WBalloons
| WProgressBar
| WStatusText
| WProgressEmpty
| WStatusEmpty.

(** What a button does: events of the functions it calls, and widgets. *)
Inductive ui_event : Type :=
| Ev (ev : event)
| Widget (w : widget).

(** The widgets of a trace. *)
Definition widgets_of (tr : list ui_event) : list widget :=
  flat_map (fun u => match u with Widget w => [w] | Ev _ => [] end) tr.

(** The values passed to [progress_bar.progress], as numerator and
    denominator. *)
Definition progress_of (tr : list event) : list (nat * nat) :=
  flat_map (fun ev => match ev with EvProgress d t => [(d, t)] | _ => [] end) tr.

(** [df_results['success'].sum()] and [len(df_results) - success_count]
    (lines 416-417). *)
Definition success_count (results : list RepairOutcome) : nat :=
  List.length (filter success results).
Definition failure_count (results : list RepairOutcome) : nat :=
  List.length results - success_count results.

(** The text of lines 447-454. *)
Definition all_repaired_message : string :=
  newline ++
  "                            🎉 **All selected tables have been successfully repaired!**"
  ++ newline ++
  "                            " ++ newline ++
  "                            - ✅ Tables have been refreshed" ++ newline ++
  "                            - ✅ Auto-refresh has been enabled" ++ newline ++
  "                            " ++ newline ++
  "                            The tables should now stay up-to-date automatically."
  ++ newline ++
  "                            ".

(** The row of the results table (lines 425-430). *)
Definition result_row (r : RepairOutcome) : string * string * string :=
  (repaired_table r, if success r then "✅ Success" else "❌ Failed", message r).

(** The expander of a failed table (lines 440-442). *)
Definition failed_detail (r : RepairOutcome) : list ui_event :=
  [Widget (WExpander ("❌ " ++ repaired_table r));
   Ev (EvStError ("Error: " ++ message r))].

(** Lines 411-454 of [main]: the report after a batch.  A frame built from
    an empty list has no column success. *)
Definition report_results (results : list RepairOutcome) : list ui_event * outcome unit :=
  let head := [Widget WDivider; Widget (WHeader "✅ Repair Results")] in
  match results with
  | [] => (head, Raised (mk_exn "KeyError" "'success'"))
  | _ :: _ =>
      let failed_tables := filter (fun r => negb (success r)) results in
      ((head
        ++ (if (0 <? success_count results)%nat
            then [Widget (WSuccess ("✅ Successfully repaired "
                                    ++ str_int (Z.of_nat (success_count results))
                                    ++ " table(s)"))]
            else [])
        ++ (if (0 <? failure_count results)%nat
            then [Ev (EvStError ("❌ Failed to repair "
                                 ++ str_int (Z.of_nat (failure_count results))
                                 ++ " table(s)"))]
            else [])
        ++ [Widget (WTable (map result_row results))]
        ++ (if (0 <? List.length failed_tables)%nat
            then Widget (WWarning "⚠️ Some tables failed to repair. Details:")
                 :: flat_map failed_detail failed_tables
            else [])
        ++ (if (failure_count results =? 0)%nat
            then [Widget WBalloons; Widget (WSuccess all_repaired_message)]
            else []))%list,
       Returned tt)
  end.

(** The f-string of the preview (lines 373-377) and its REFRESH line. *)
Definition preview_refresh_line (database_name selected_schema table_name : string)
  : string :=
  "ALTER ICEBERG TABLE " ++ database_name ++ "." ++ selected_schema ++ "."
  ++ dquote ++ table_name ++ dquote ++ " REFRESH;".

Definition preview_auto_refresh_line
  (database_name selected_schema table_name : string) : string :=
  "ALTER ICEBERG TABLE " ++ database_name ++ "." ++ selected_schema ++ "."
  ++ dquote ++ table_name ++ dquote ++ " SET AUTO_REFRESH = TRUE;".

Definition preview_code (database_name selected_schema table_name : string) : string :=
  newline ++ "-- For table: " ++ table_name ++ newline ++
  preview_refresh_line database_name selected_schema table_name ++ newline ++
  preview_auto_refresh_line database_name selected_schema table_name ++ newline ++
  "                        ".

Section Model.

(** The session object: evaluating [conn.sql(query).collect()] on it, the
    lookup of the attribute included, moves the warehouse to a new state and
    returns rows or raises. *)
Variable Conn : Type.
Variable conn_sql : Conn -> string -> Conn * outcome (list row).
(** The value of [hasattr] for the attribute sql of the session. *)
Variable conn_has_sql : bool.
(** [str] of a timestamp value. *)
Variable str_timestamp : Z -> string.

(** A computation: from the session state to the calls made, the new
    session state and the outcome. *)
Definition M (A : Type) : Type := Conn -> list event * Conn * outcome A.

(** The three parts of a run. *)
Definition trace_of {A : Type} (r : list event * Conn * outcome A) : list event :=
  fst (fst r).
Definition conn_of {A : Type} (r : list event * Conn * outcome A) : Conn :=
  snd (fst r).
Definition result_of {A : Type} (r : list event * Conn * outcome A) : outcome A :=
  snd r.

Definition ret {A : Type} (a : A) : M A := fun c => ([], c, Returned a).

Definition raise {A : Type} (e : exn) : M A := fun c => ([], c, Raised e).

Definition bind {A B : Type} (m : M A) (k : A -> M B) : M B := fun c =>
  match m c with
  | (tr, c1, Returned a) =>
      match k a c1 with (tr2, c2, r) => ((tr ++ tr2)%list, c2, r) end
  | (tr, c1, Raised e) => (tr, c1, Raised e)
  end.

(** [try: body / except Exception as e: handler e]. *)
Definition try_except {A : Type} (body : M A) (handler : exn -> M A) : M A := fun c =>
  match body c with
  | (tr, c1, Returned a) => (tr, c1, Returned a)
  | (tr, c1, Raised e) =>
      match handler e c1 with (tr2, c2, r) => ((tr ++ tr2)%list, c2, r) end
  end.

Definition lift {A : Type} (o : outcome A) : M A := fun c => ([], c, o).

Definition emit (ev : event) : M unit := fun c => ([ev], c, Returned tt).

Definition sql_collect (query : string) : M (list row) := fun c =>
  match conn_sql c query with (c1, r) => ([EvSql query], c1, r) end.

Notation "x <- m ;; k" := (bind m (fun x => k))
  (at level 61, m at next level, right associativity).
Notation "m ;;; k" := (bind m (fun _ => k))
  (at level 61, right associativity).

(** A [for] loop that appends one value per element and gives up at the
    first exception. *)
Fixpoint for_each {A B : Type} (f : A -> M B) (l : list A) : M (list B) :=
  match l with
  | [] => ret []
  | a :: rest => b <- f a ;; bs <- for_each f rest ;; ret (b :: bs)
  end.

Definition py_str (v : value) : string :=
  match v with
  | VNone => "None"
  | VStr s => s
  | VInt z => str_int z
  | VTimestamp t => str_timestamp t
  end.

(** [execute_query] (lines 74-87).  The two branches on [hasattr] hold the
    same expression. *)
Definition execute_query (query : string) : M (list row) :=
  try_except
    (if conn_has_sql
     then result <- sql_collect query ;; ret (map (fun r : row => r) result)
     else result <- sql_collect query ;; ret (map (fun r : row => r) result))
    (fun e => emit (query_error e) ;;; raise e).

(** [str(row[0])] (line 106). *)
Definition schema_name (r : row) : outcome string :=
  match tuple_index r 0 with
  | Returned v => Returned (py_str v)
  | Raised e => Raised e
  end.

(** [list_schemas] (lines 89-111). *)
Definition list_schemas (database : string) : M (list string) :=
  try_except
    (let database_quoted := quote_ident database in
     let query := schemata_query database_quoted in
     results <- execute_query query ;;
     for_each (fun r : row => lift (schema_name r)) results)
    (fun e => emit (schemas_error e) ;;; ret []).

(** The dict literal of lines 140-146, evaluated key by key. *)
Definition stale_record (database schema : string) (r : row) : outcome StaleTable :=
  match tuple_index r 0 with
  | Raised e => Raised e
  | Returned name =>
      match tuple_index r 1 with
      | Raised e => Raised e
      | Returned altered =>
          match (if (2 <? List.length r)%nat then tuple_index r 2
                 else Returned (VInt 0)) with
          | Raised e => Raised e
          | Returned count => Returned (mk_stale name altered count database schema)
          end
      end
  end.

(** [find_stale_tables] (lines 113-151). *)
Definition find_stale_tables (database schema : string) (days_threshold : Z)
  : M (list StaleTable) :=
  try_except
    (let database_quoted := quote_ident database in
     let schema_escaped := replace_squote schema in
     let query := stale_query database_quoted schema_escaped days_threshold in
     results <- execute_query query ;;
     for_each (fun r : row => lift (stale_record database schema r)) results)
    (fun e => emit (stale_error e) ;;; ret []).

(** [repair_table] (lines 153-171). *)
Definition repair_table (database schema table_name : string) : M (bool * string) :=
  try_except
    (execute_query (refresh_query database schema table_name) ;;;
     execute_query (auto_refresh_query database schema table_name) ;;;
     ret (true, "Success"))
    (fun e => ret (false, exn_str e)).

(** The first component of the pair a run of [repair_table] returned. *)
Definition repair_succeeded (r : list event * Conn * outcome (bool * string)) : bool :=
  match result_of r with
  | Returned (ok, _) => ok
  | Raised _ => false
  end.

(** The loop of [main] (lines 388-404): [idx] counts from 0 and
    [repair_results] is the list appended to. *)
Fixpoint repair_loop (database schema : string) (total_tables idx : nat)
  (selected_tables : list string) (repair_results : list RepairOutcome)
  : M (list RepairOutcome) :=
  match selected_tables with
  | [] => ret repair_results
  | table_name :: rest =>
      emit (EvStatusText ("Processing " ++ str_int (Z.of_nat (idx + 1)) ++ "/"
                          ++ str_int (Z.of_nat total_tables) ++ ": "
                          ++ table_name ++ "...")) ;;;
      sm <- repair_table database schema table_name ;;
      let repair_results' :=
        (repair_results ++ [mk_outcome table_name (fst sm) (snd sm)])%list in
      emit (EvProgress (idx + 1) total_tables) ;;;
      repair_loop database schema total_tables (S idx) rest repair_results'
  end.

(** Lines 382-409 of [main]: the batch over the operator's selection; the
    value is what is stored in [st.session_state.repair_results]. *)
Definition repair_selected (database schema : string) (selected_tables : list string)
  : M (list RepairOutcome) :=
  repair_loop database schema (List.length selected_tables) 0 selected_tables [].

(** *** The two buttons of [main] *)

(** Lines 269-282: the button that looks for stale tables.  The result is
    the session state after the assignment of line 277. *)
Definition find_stale_button (database_name selected_schema : string)
  (days_threshold : Z) (ss : session_state)
  : Conn -> list ui_event * Conn * session_state * outcome unit := fun c =>
  match find_stale_tables database_name selected_schema days_threshold c with
  | (tr, c1, Raised e) => (map Ev tr, c1, ss, Raised e)
  | (tr, c1, Returned found) =>
      ((map Ev tr
        ++ [Widget
              match found with
              | _ :: _ =>
                  WWarning ("⚠️ Found " ++ str_int (Z.of_nat (List.length found))
                            ++ " table(s) that haven't been refreshed in the last "
                            ++ str_int days_threshold ++ " day(s)")
              | [] =>
                  WSuccess ("✅ All tables in " ++ database_name ++ "."
                            ++ selected_schema ++ " have been refreshed recently!")
              end])%list,
       c1, mk_session (Some found) (selected_tables ss) (repair_results ss),
       Returned tt)
  end.

(** Lines 380-456: the button that repairs the selection. *)
Definition repair_button (database_name selected_schema : string)
  (selection : list string) (ss : session_state)
  : Conn -> list ui_event * Conn * session_state * outcome unit := fun c =>
  match selection with
  | [] =>
      ([Widget (WWarning "⚠️ Please select at least one table to repair")], c, ss,
       Returned tt)
  | _ :: _ =>
      match repair_selected database_name selected_schema selection c with
      | (tr, c1, Raised e) =>
          ((Widget WProgressBar :: Widget WStatusText :: map Ev tr)%list, c1, ss,
           Raised e)
      | (tr, c1, Returned results) =>
          ((Widget WProgressBar :: Widget WStatusText :: map Ev tr
            ++ [Widget WProgressEmpty; Widget WStatusEmpty]
            ++ fst (report_results results))%list,
           c1, mk_session (stale_tables ss) (selected_tables ss) (Some results),
           snd (report_results results))
      end
  end.

End Model.

(** *** Sessions to run the functions against *)

(** A session that answers every statement with the same rows. *)
Definition constant_session (rows : list row) (c : unit) (query : string)
  : unit * outcome (list row) :=
  (c, Returned rows).

(** A session that plays a script: the state is the list of answers still
    to give, one per statement received. *)
Definition scripted_session (c : list (outcome (list row))) (query : string)
  : list (outcome (list row)) * outcome (list row) :=
  match c with
  | answer :: rest => (rest, answer)
  | [] => ([], Raised (mk_exn "ProgrammingError" "session closed"))
  end.

(** The answers for a batch over three tables in which the REFRESH of the
    second raises. *)
Definition sample_script : list (outcome (list row)) :=
  [ Returned []; Returned [];
    Raised (mk_exn "SnowparkSQLException" "Table T2 does not exist");
    Returned []; Returned [] ].

Arguments trace_of {Conn A} r.
Arguments conn_of {Conn A} r.
Arguments result_of {Conn A} r.
Arguments repair_succeeded {Conn} r.

End Snowflake.

(** ** databricks_create_mdlh_setup.py *)
Module Databricks.
Import Py.

(** pyiceberg's [Identifier]: a tuple of strings. *)
Definition Identifier : Type := list string.

(** An element of [catalog.list_namespaces()]: a tuple, or a flat string. *)
Inductive namespace_ref : Type :=
| NsTuple (t : list string)
| NsStr (s : string).

(** The part of a loaded table the script reads. *)
Record Table : Type := mk_table {
  identifier : Identifier;
  metadata_location : option string
}.

(** The keyword arguments of [load_catalog]. *)
Record catalog_properties : Type := mk_props {
  uri : string;
  warehouse : string;
  credential : string;
  scope : string
}.

(** The two statements the sync sends to Spark, with the namespace each is
    derived for. *)
Inductive statement : Type :=
| CreateSchema (namespace : string)
| CreateTable (namespace table_name metadata_path : string).

Definition statement_namespace (s : statement) : string :=
  match s with
  | CreateSchema namespace => namespace
  | CreateTable namespace _ _ => namespace
  end.

(** One constructor per logging call of the script, with its arguments. *)
Inductive log_record : Type :=
| InfoDetecting
| InfoUsingCatalog (candidate : string)
| InfoNotAccessible (candidate : string)
| InfoConnected (catalog_name : string)
| InfoFoundNamespaces (namespaces : list namespace_ref)
| InfoStarting
| InfoSkippingHistory
| InfoProcessing (namespace : string)
| ErrorSchema (namespace : string) (e : exn)
| ErrorListing (namespace : string) (e : exn)
| InfoCreatingTable (sql : string)
| InfoCreatedTable (full_table : string)
| ErrorTable (namespace table_name : string) (e : exn)
| InfoCompleted.

(** The calls the script makes, in order. *)
Inductive event : Type :=
| EvLoadCatalog (name : string) (props : catalog_properties)
| EvListNamespaces
| EvListTables (namespace : string)
| EvLoadTable (table_identifier : Identifier)
| EvSparkSession
| EvSparkSql (s : statement)
| EvLog (r : log_record).

(** The collaborators: the Polaris catalog client and the Spark session.
    Every call moves the outside world and returns or raises. *)
Record Platform : Type := mk_platform {
  World : Type;
  Catalog : Type;
  load_catalog : World -> string -> catalog_properties -> World * outcome Catalog;
  catalog_list_namespaces : World -> Catalog -> World * outcome (list namespace_ref);
  catalog_list_tables : World -> Catalog -> string -> World * outcome (list Identifier);
  catalog_load_table : World -> Catalog -> Identifier -> World * outcome Table;
  (** [SparkSession.builder.getOrCreate()] and the [spark.conf.set] of line 118 *)
  spark_session : World -> World * outcome unit;
  spark_sql : World -> string -> World * outcome unit;
  (** [str] of an identifier tuple *)
  str_identifier : Identifier -> string
}.

(** [os.getenv(name, default)]. *)
Definition getenv (environ : string -> option string) (name default : string) : string :=
  match environ name with Some v => v | None => default end.

(** [str.lower]; only the ASCII letters matter for the comparison with
    the word true. *)
Definition lower_ascii (c : ascii) : ascii :=
  let n := nat_of_ascii c in
  if ((65 <=? n) && (n <=? 90))%nat then ascii_of_nat (n + 32) else c.

Fixpoint lower (s : string) : string :=
  match s with
  | EmptyString => EmptyString
  | String c rest => String (lower_ascii c) (lower rest)
  end.

(** The instance attributes of [PolarisSQLReader]. *)
Record PolarisSQLReader (C : Type) : Type := mk_reader {
  catalog : option C;
  catalog_name : option string;
  warehouse_name : option string
}.
Arguments mk_reader {C} _ _ _.
Arguments catalog {C} _.
Arguments catalog_name {C} _.
Arguments warehouse_name {C} _.

(** The catalogs [load_catalog] was called for, in order. *)
Definition catalogs_tried (tr : list event) : list string :=
  flat_map (fun ev => match ev with EvLoadCatalog name _ => [name] | _ => [] end) tr.

(** The calls to the collaborators, without the log records. *)
Definition external_calls (tr : list event) : list event :=
  filter (fun ev => match ev with EvLog _ => false | _ => true end) tr.

(** The statements sent to Spark, in order. *)
Definition statements_of (tr : list event) : list statement :=
  flat_map (fun ev => match ev with EvSparkSql st => [st] | _ => [] end) tr.

(** [R] holds of every statement sent to Spark; other events are free. *)
Definition spark_only (R : statement -> Prop) (ev : event) : Prop :=
  match ev with
  | EvSparkSql st => R st
  | _ => True
  end.

(** Events that are not a call of [load_catalog]. *)
Definition not_load_catalog (ev : event) : Prop :=
  match ev with
  | EvLoadCatalog _ _ => False
  | _ => True
  end.

(** [st] is a CREATE TABLE of the namespace. *)
Definition create_table_for (namespace : string) (st : statement) : Prop :=
  exists table_name metadata_path, st = CreateTable namespace table_name metadata_path.

(** The METADATA_PATH of a CREATE TABLE is not the empty string. *)
Definition path_not_empty (st : statement) : Prop :=
  match st with
  | CreateTable _ _ metadata_path => metadata_path <> ""
  | CreateSchema _ => True
  end.

(** [ns] is normalized to [name]: the first element of a tuple, a flat
    string as it is. *)
Definition normalized (ns : namespace_ref) (name : string) : Prop :=
  match ns with
  | NsTuple t => hd_error t = Some name
  | NsStr s => name = s
  end.

Section Model.

Variable P : Platform.
Variable environ : string -> option string.

(** Configuration (lines 27-36). *)
Definition CLIENT_ID : string := getenv environ "CLIENT_ID" "<polaris-reader-client-id>".
Definition CLIENT_SECRET : string :=
  getenv environ "CLIENT_SECRET" "<polaris-reader-client-secret>".
Definition POLARIS_CATALOG_URI : string :=
  getenv environ "POLARIS_CATALOG_URI"
    "https://<tenant-domain>.atlan.com/api/polaris/api/catalog".
Definition DBX_CATALOG_NAME : string :=
  getenv environ "DBX_CATALOG_NAME" "<target-dbx-catalog-name>".
Definition HISTORY_NAMESPACE_SYNC : bool :=
  String.eqb (lower (getenv environ "HISTORY_NAMESPACE_SYNC" "false")) "true".

(** The program state: the outside world and the one reader object. *)
Record state : Type := mk_state {
  world : World P;
  reader : PolarisSQLReader (Catalog P)
}.

Definition M (A : Type) : Type := state -> list event * state * outcome A.

Definition ret {A : Type} (a : A) : M A := fun s => ([], s, Returned a).

Definition raise {A : Type} (e : exn) : M A := fun s => ([], s, Raised e).

Definition bind {A B : Type} (m : M A) (k : A -> M B) : M B := fun s =>
  match m s with
  | (tr, s1, Returned a) =>
      match k a s1 with (tr2, s2, r) => ((tr ++ tr2)%list, s2, r) end
  | (tr, s1, Raised e) => (tr, s1, Raised e)
  end.

(** [try: body / except Exception as e: handler e]. *)
Definition try_except {A : Type} (body : M A) (handler : exn -> M A) : M A := fun s =>
  match body s with
  | (tr, s1, Returned a) => (tr, s1, Returned a)
  | (tr, s1, Raised e) =>
      match handler e s1 with (tr2, s2, r) => ((tr ++ tr2)%list, s2, r) end
  end.

Definition lift {A : Type} (o : outcome A) : M A := fun s => ([], s, o).

Definition log (r : log_record) : M unit := fun s => ([EvLog r], s, Returned tt).

(** A call to a collaborator: the event is recorded, the world moves. *)
Definition call {A : Type} (ev : event) (f : World P -> World P * outcome A) : M A :=
  fun s =>
    match f (world s) with (w1, r) => ([ev], mk_state w1 (reader s), r) end.

Definition get_reader : M (PolarisSQLReader (Catalog P)) :=
  fun s => ([], s, Returned (reader s)).

Definition set_reader (r : PolarisSQLReader (Catalog P)) : M unit :=
  fun s => ([], mk_state (world s) r, Returned tt).

Notation "x <- m ;; k" := (bind m (fun x => k))
  (at level 61, m at next level, right associativity).
Notation "m ;;; k" := (bind m (fun _ => k))
  (at level 61, right associativity).

Fixpoint for_each {A B : Type} (f : A -> M B) (l : list A) : M (list B) :=
  match l with
  | [] => ret []
  | a :: rest => b <- f a ;; bs <- for_each f rest ;; ret (b :: bs)
  end.

(** A [for] loop run for its effects; an exception leaving the body ends
    the loop. *)
Fixpoint for_ {A : Type} (body : A -> M unit) (l : list A) : M unit :=
  match l with
  | [] => ret tt
  | a :: rest => body a ;;; for_ body rest
  end.

Definition polaris_properties (warehouse : string) : catalog_properties :=
  mk_props POLARIS_CATALOG_URI warehouse (CLIENT_ID ++ ":" ++ CLIENT_SECRET)
    "PRINCIPAL_ROLE:ALL".

Definition do_load_catalog (name warehouse : string) : M (Catalog P) :=
  let props := polaris_properties warehouse in
  call (EvLoadCatalog name props) (fun w => load_catalog P w name props).

(** One turn of the loop of [detect_catalog] (lines 58-71): [Some] is the
    [return] of line 69, [None] falls through to the next candidate. *)
Definition try_candidate (candidate : string) : M (option (string * string)) :=
  try_except
    (test_catalog <- do_load_catalog candidate candidate ;;
     namespaces <- call EvListNamespaces
                     (fun w => catalog_list_namespaces P w test_catalog) ;;
     match namespaces with
     | _ :: _ => log (InfoUsingCatalog candidate) ;;; ret (Some (candidate, candidate))
     | [] => ret None
     end)
    (fun _ => log (InfoNotAccessible candidate) ;;; ret None).

Fixpoint detect_loop (candidates : list string) : M (string * string) :=
  match candidates with
  | [] => raise (mk_exn "RuntimeError" "No valid Polaris catalog found")
  | candidate :: rest =>
      r <- try_candidate candidate ;;
      match r with
      | Some found => ret found
      | None => detect_loop rest
      end
  end.

(** [PolarisSQLReader.detect_catalog] (lines 50-73). *)
Definition detect_catalog : M (string * string) :=
  log InfoDetecting ;;;
  detect_loop ["atlan-wh"; "context_store"].

(** [PolarisSQLReader.connect_to_catalog] (lines 75-85). *)
Definition connect_to_catalog : M unit :=
  self <- get_reader ;;
  match catalog self with
  | Some _ => ret tt
  | None =>
      found <- detect_catalog ;;
      set_reader (mk_reader None (Some (fst found)) (Some (snd found))) ;;;
      c <- do_load_catalog (fst found) (snd found) ;;
      set_reader (mk_reader (Some c) (Some (fst found)) (Some (snd found))) ;;;
      log (InfoConnected (fst found))
  end.

(** [self.catalog.m(...)]: an attribute of [None] raises. *)
Definition self_catalog : M (Catalog P) :=
  self <- get_reader ;;
  match catalog self with
  | Some c => ret c
  | None => raise (mk_exn "AttributeError" "'NoneType' object has no attribute")
  end.

(** [ns[0] if isinstance(ns, tuple) else ns]. *)
Definition first_element (ns : namespace_ref) : outcome string :=
  match ns with
  | NsTuple t => tuple_index t 0
  | NsStr s => Returned s
  end.

(** [PolarisSQLReader.list_namespaces] (lines 87-91). *)
Definition list_namespaces : M (list string) :=
  connect_to_catalog ;;;
  c <- self_catalog ;;
  namespaces <- call EvListNamespaces (fun w => catalog_list_namespaces P w c) ;;
  log (InfoFoundNamespaces namespaces) ;;;
  for_each (fun ns => lift (first_element ns)) namespaces.

(** [PolarisSQLReader.list_tables] (lines 93-95). *)
Definition list_tables (namespace : string) : M (list Identifier) :=
  connect_to_catalog ;;;
  c <- self_catalog ;;
  call (EvListTables namespace) (fun w => catalog_list_tables P w c namespace).

(** [get_metadata_path] (lines 103-106): [None] and the empty string are
    both false. *)
Definition get_metadata_path (table : Table) : outcome string :=
  match metadata_location table with
  | None | Some EmptyString =>
      Raised (mk_exn "ValueError"
                ("No metadata location for " ++ str_identifier P (identifier table)))
  | Some location => Returned location
  end.

(** [table_identifier[-1]]. *)
Definition last_element (t : Identifier) : outcome string :=
  match rev t with
  | x :: _ => Returned x
  | [] => Raised (mk_exn "IndexError" "tuple index out of range")
  end.

Definition full_table_name (namespace table_name : string) : string :=
  DBX_CATALOG_NAME ++ ".`" ++ namespace ++ "`.`" ++ table_name ++ "`".

(** The text passed to [spark.sql] (lines 133 and 154-158). *)
Definition statement_sql (s : statement) : string :=
  match s with
  | CreateSchema namespace =>
      "CREATE SCHEMA IF NOT EXISTS " ++ DBX_CATALOG_NAME ++ ".`" ++ namespace ++ "`"
  | CreateTable namespace table_name metadata_path =>
      newline ++
      "                CREATE TABLE IF NOT EXISTS "
      ++ full_table_name namespace table_name ++ newline ++
      "                UNIFORM ICEBERG" ++ newline ++
      "                METADATA_PATH '" ++ metadata_path ++ "'" ++ newline ++
      "                "
  end.

Definition do_spark_sql (s : statement) : M unit :=
  call (EvSparkSql s) (fun w => spark_sql P w (statement_sql s)).

(** The body of the inner loop of [main] (lines 147-168). *)
Definition sync_table (namespace : string) (table_identifier : Identifier) : M unit :=
  try_except
    (c <- self_catalog ;;
     table <- call (EvLoadTable table_identifier)
                (fun w => catalog_load_table P w c table_identifier) ;;
     metadata_path <- lift (get_metadata_path table) ;;
     table_name <- lift (last_element table_identifier) ;;
     let full_table := full_table_name namespace table_name in
     let s := CreateTable namespace table_name metadata_path in
     log (InfoCreatingTable (statement_sql s)) ;;;
     do_spark_sql s ;;;
     log (InfoCreatedTable full_table))
    (fun e =>
       table_name <- lift (last_element table_identifier) ;;
       log (ErrorTable namespace table_name e)).

(** The body of the outer loop of [main] (lines 124-168); every [continue]
    ends the turn. *)
Definition sync_namespace (namespace : string) : M unit :=
  if String.eqb namespace "atlan-history" && negb HISTORY_NAMESPACE_SYNC
  then log InfoSkippingHistory
  else
    log (InfoProcessing namespace) ;;;
    created <- try_except
                 (do_spark_sql (CreateSchema namespace) ;;; ret true)
                 (fun e => log (ErrorSchema namespace e) ;;; ret false) ;;
    if negb created then ret tt
    else
      tables <- try_except
                  (l <- list_tables namespace ;; ret (Some l))
                  (fun e => log (ErrorListing namespace e) ;;; ret None) ;;
      match tables with
      | None => ret tt
      | Some l => for_ (sync_table namespace) l
      end.

(** What the [try] block of [detect_catalog] finds for a candidate in the
    world [w]: the world after the attempt, and whether the connection
    succeeded and the namespace list was not empty. *)
Definition probe (w : World P) (candidate : string) : World P * bool :=
  match load_catalog P w candidate (polaris_properties candidate) with
  | (w1, Returned test_catalog) =>
      match catalog_list_namespaces P w1 test_catalog with
      | (w2, Returned (_ :: _)) => (w2, true)
      | (w2, _) => (w2, false)
      end
  | (w1, Raised _) => (w1, false)
  end.

(** The three parts of a run. *)
Definition trace_of {A : Type} (r : list event * state * outcome A) : list event :=
  fst (fst r).
Definition state_of {A : Type} (r : list event * state * outcome A) : state :=
  snd (fst r).
Definition result_of {A : Type} (r : list event * state * outcome A) : outcome A :=
  snd r.

(** Every event of every run of [m] satisfies [Q]. *)
Definition emits {A : Type} (Q : event -> Prop) (m : M A) : Prop :=
  forall s, Forall Q (trace_of (m s)).

(** The reader holds a catalog. *)
Definition connected (s : state) : Prop := exists c, catalog (reader s) = Some c.

(** From a state whose reader holds a catalog, every event of [m]
    satisfies [Q] and the reader still holds a catalog afterwards. *)
Definition stays_connected {A : Type} (Q : event -> Prop) (m : M A) : Prop :=
  forall s, connected s -> Forall Q (trace_of (m s)) /\ connected (state_of (m s)).

(** The loop of [main] over the namespaces (lines 123-168). *)
Definition sync_namespaces (namespaces : list string) : M unit :=
  for_ sync_namespace namespaces.

(** [main] (lines 114-169). *)
Definition main : M unit :=
  log InfoStarting ;;;
  call EvSparkSession (spark_session P) ;;;
  set_reader (mk_reader None None None) ;;;
  namespaces <- list_namespaces ;;
  sync_namespaces namespaces ;;;
  log InfoCompleted.

End Model.

Arguments trace_of {P A} r.
Arguments state_of {P A} r.
Arguments result_of {P A} r.

(** *** A platform to run the sync against

    The world is stateless.  The catalog atlan-wh cannot be loaded and
    context_store can; it lists four namespaces, one table in each with a
    metadata file; Spark refuses to create the schema named bad. *)
Definition sample_environ (name : string) : option string := None.

(** [str] of a tuple of strings that hold no quote and no backslash: the
    elements between single quotes, a comma after a lone element. *)
Definition str_tuple (t : Identifier) : string :=
  match t with
  | [] => "()"
  | [x] => "('" ++ x ++ "',)"
  | _ => "(" ++ String.concat ", " (map (fun x => "'" ++ x ++ "'") t) ++ ")"
  end.

Definition sample_namespaces : list namespace_ref :=
  [NsTuple ["entity_metadata"]; NsStr "atlan-history"; NsTuple ["bad"; "x"];
   NsStr "gold"].

Definition sample_platform : Platform :=
  mk_platform unit string
    (fun w name props =>
       if String.eqb name "atlan-wh"
       then (w, Raised (mk_exn "NoSuchWarehouse" "atlan-wh"))
       else (w, Returned name))
    (fun w c => (w, Returned sample_namespaces))
    (fun w c namespace => (w, Returned [[namespace; "assets"]]))
    (fun w c table_identifier =>
       (w, Returned (mk_table table_identifier (Some "s3://lake/assets/v1.metadata.json"))))
    (fun w => (w, Returned tt))
    (fun w text =>
       if String.eqb text
            (statement_sql sample_environ (CreateSchema "bad"))
       then (w, Raised (mk_exn "AnalysisException" "PERMISSION_DENIED"))
       else (w, Returned tt))
    str_tuple.

(** The same platform with other namespaces and another metadata location
    for every table; a namespace named empty lists a table whose identifier
    has no element. *)
Definition sample_platform_with (namespaces : list namespace_ref)
  (location : option string) : Platform :=
  mk_platform unit string
    (fun w name props =>
       if String.eqb name "atlan-wh"
       then (w, Raised (mk_exn "NoSuchWarehouse" "atlan-wh"))
       else (w, Returned name))
    (fun w c => (w, Returned namespaces))
    (fun w c namespace =>
       if String.eqb namespace "empty" then (w, Returned [[]])
       else (w, Returned [[namespace; "assets"]]))
    (fun w c table_identifier => (w, Returned (mk_table table_identifier location)))
    (fun w => (w, Returned tt))
    (fun w text => (w, Returned tt))
    str_tuple.

(** A platform on which no catalog can be loaded. *)
Definition sample_platform_offline : Platform :=
  mk_platform unit string
    (fun w name props => (w, Raised (mk_exn "ConnectionError" name)))
    (fun w c => (w, Returned []))
    (fun w c namespace => (w, Returned []))
    (fun w c table_identifier => (w, Returned (mk_table table_identifier None)))
    (fun w => (w, Returned tt))
    (fun w text => (w, Returned tt))
    str_tuple.

(** The state at the start of [main], and the state once connected. *)
Definition sample_start : state sample_platform :=
  mk_state sample_platform tt (mk_reader None None None).

Definition sample_connected : state sample_platform :=
  mk_state sample_platform tt
    (mk_reader (Some "context_store") (Some "context_store") (Some "context_store")).

End Databricks.

(** ** Properties of MDLH_table_refresh_repair.py *)
Module SnowflakeFacts.
Import Py Snowflake.

(** *** Strings *)

Lemma append_inv_head (p a b : string) : p ++ a = p ++ b -> a = b.
Proof.
  induction p as [|ch p IH]; simpl; intros H.
  - exact H.
  - injection H as H. auto.
Qed.

Lemma startswith_dquote_cons (x : string) : startswith (dquote ++ x) dquote = true.
Proof.
  unfold startswith, dquote. simpl.
  destruct x; reflexivity.
Qed.

Lemma refresh_is_not_auto_refresh (database schema table_name : string) :
  auto_refresh_query database schema table_name
  <> refresh_query database schema table_name.
Proof.
  unfold auto_refresh_query, refresh_query. intros H.
  apply append_inv_head in H. discriminate H.
Qed.

(** C8: quoting an identifier that is already quoted leaves it as it is, so
    quoting twice is the same as quoting once, for every identifier. *)
Theorem quote_ident_idempotent (x : string) :
  quote_ident (quote_ident x) = quote_ident x
  /\ (startswith x dquote = true -> quote_ident x = x).
Proof.
  split.
  - destruct (startswith x dquote) eqn:Hx.
    + assert (E : quote_ident x = x) by (unfold quote_ident; now rewrite Hx).
      now rewrite !E.
    + assert (E : quote_ident x = dquote ++ x ++ dquote)
        by (unfold quote_ident; now rewrite Hx).
      rewrite E. unfold quote_ident.
      now rewrite startswith_dquote_cons.
  - intros Hx. unfold quote_ident. now rewrite Hx.
Qed.

(** *** Runs of the functions against an arbitrary session *)
Section Runs.

Variable Conn : Type.
Variable conn_sql : Conn -> string -> Conn * outcome (list row).
Variable conn_has_sql : bool.
Variable str_timestamp : Z -> string.

Local Abbreviation execute_query := (Snowflake.execute_query Conn conn_sql conn_has_sql).
Local Abbreviation list_schemas :=
  (Snowflake.list_schemas Conn conn_sql conn_has_sql str_timestamp).
Local Abbreviation find_stale_tables :=
  (Snowflake.find_stale_tables Conn conn_sql conn_has_sql).
Local Abbreviation repair_table := (Snowflake.repair_table Conn conn_sql conn_has_sql).
Local Abbreviation repair_loop := (Snowflake.repair_loop Conn conn_sql conn_has_sql).
Local Abbreviation repair_selected := (Snowflake.repair_selected Conn conn_sql conn_has_sql).

(** [execute_query] sends the statement once; on an exception it reports it
    and raises it again. *)
Lemma execute_query_run (query : string) (c : Conn) :
  execute_query query c =
  match conn_sql c query with
  | (c1, Returned rows) => ([EvSql query], c1, Returned rows)
  | (c1, Raised e) => ([EvSql query; query_error e], c1, Raised e)
  end.
Proof.
  unfold Snowflake.execute_query, try_except, bind, sql_collect, ret, raise, emit.
  destruct conn_has_sql; destruct (conn_sql c query) as [c1 [rows|e]]; simpl;
    rewrite ?map_id; reflexivity.
Qed.

(** A loop of pure steps does not touch the session. *)
Lemma for_each_lift {A B : Type} (f : A -> outcome B) (l : list A) (c : Conn) :
  for_each Conn (fun a => lift Conn (f a)) l c = ([], c, collect f l).
Proof.
  induction l as [|a l IH]; simpl.
  - reflexivity.
  - unfold bind, lift at 1. destruct (f a) as [b|e]; [|reflexivity].
    rewrite IH. destruct (collect f l); reflexivity.
Qed.

Lemma collect_length {A B : Type} (f : A -> outcome B) (l : list A) (bs : list B) :
  collect f l = Returned bs -> Forall2 (fun a b => f a = Returned b) l bs.
Proof.
  revert bs. induction l as [|a l IH]; simpl; intros bs H.
  - injection H as <-. constructor.
  - destruct (f a) as [b|e] eqn:Ha; [|discriminate H].
    destruct (collect f l) as [bs'|e]; [|discriminate H].
    injection H as <-. constructor; auto.
Qed.

Lemma collect_all {A B : Type} (f : A -> outcome B) (l : list A) :
  Forall (fun a => exists b, f a = Returned b) l -> exists bs, collect f l = Returned bs.
Proof.
  induction 1 as [|a l [b Ha] _ [bs IH]]; simpl.
  - eauto.
  - rewrite Ha, IH. eauto.
Qed.

Lemma collect_raises {A B : Type} (f : A -> outcome B) (l : list A) :
  Exists (fun a => exists e, f a = Raised e) l -> exists e, collect f l = Raised e.
Proof.
  induction 1 as [a l [e Ha]|a l _ [e IH]]; simpl.
  - rewrite Ha. eauto.
  - destruct (f a); [rewrite IH|]; eauto.
Qed.

(** [find_stale_tables] and [list_schemas] in terms of what the session
    answers. *)
Lemma find_stale_tables_run (database schema : string) (days_threshold : Z) (c : Conn) :
  find_stale_tables database schema days_threshold c =
  let q := stale_query (quote_ident database) (replace_squote schema) days_threshold in
  match conn_sql c q with
  | (c1, Raised e) => ([EvSql q; query_error e; stale_error e], c1, Returned [])
  | (c1, Returned rows) =>
      match collect (stale_record database schema) rows with
      | Returned l => ([EvSql q], c1, Returned l)
      | Raised e => ([EvSql q; stale_error e], c1, Returned [])
      end
  end.
Proof.
  unfold Snowflake.find_stale_tables, try_except, bind. cbv zeta.
  rewrite execute_query_run.
  destruct (conn_sql c _) as [c1 [rows|e]]; [|reflexivity].
  rewrite for_each_lift. destruct (collect _ rows); reflexivity.
Qed.

Lemma list_schemas_run (database : string) (c : Conn) :
  list_schemas database c =
  let q := schemata_query (quote_ident database) in
  match conn_sql c q with
  | (c1, Raised e) => ([EvSql q; query_error e; schemas_error e], c1, Returned [])
  | (c1, Returned rows) =>
      match collect (schema_name str_timestamp) rows with
      | Returned l => ([EvSql q], c1, Returned l)
      | Raised e => ([EvSql q; schemas_error e], c1, Returned [])
      end
  end.
Proof.
  unfold Snowflake.list_schemas, try_except, bind at 1. cbv zeta.
  rewrite execute_query_run.
  destruct (conn_sql c _) as [c1 [rows|e]]; [|reflexivity].
  rewrite for_each_lift. destruct (collect _ rows); reflexivity.
Qed.

(** C7: whatever the session does, [find_stale_tables] and [list_schemas]
    return a list and never raise; when the statement they send raises, the
    list is empty and the error was reported through [st.error]. *)
Theorem detector_never_raises (database schema : string) (days_threshold : Z)
  (c : Conn) :
  (exists l,
      result_of (find_stale_tables database schema days_threshold c) = Returned l
      /\ forall c1 e,
           conn_sql c (stale_query (quote_ident database) (replace_squote schema)
                         days_threshold) = (c1, Raised e) ->
           l = []
           /\ In (stale_error e)
                (trace_of (find_stale_tables database schema days_threshold c)))
  /\ (exists l,
         result_of (list_schemas database c) = Returned l
         /\ forall c1 e,
              conn_sql c (schemata_query (quote_ident database)) = (c1, Raised e) ->
              l = [] /\ In (schemas_error e) (trace_of (list_schemas database c))).
Proof.
  rewrite find_stale_tables_run, list_schemas_run. cbv zeta. split.
  - destruct (conn_sql c (stale_query _ _ _)) as [c1 [rows|e]].
    + destruct (collect _ rows) as [l|e]; unfold result_of, trace_of; simpl;
        eexists; (split; [reflexivity|]); intros c1' e' E; discriminate E.
    + unfold result_of, trace_of; simpl. eexists. split; [reflexivity|].
      intros c1' e' E. injection E as _ <-. simpl. auto.
  - destruct (conn_sql c (schemata_query _)) as [c1 [rows|e]].
    + destruct (collect _ rows) as [l|e]; unfold result_of, trace_of; simpl;
        eexists; (split; [reflexivity|]); intros c1' e' E; discriminate E.
    + unfold result_of, trace_of; simpl. eexists. split; [reflexivity|].
      intros c1' e' E. injection E as _ <-. simpl. auto.
Qed.

(** [repair_table] in terms of what the session answers. *)
Lemma repair_table_run (database schema table_name : string) (c : Conn) :
  repair_table database schema table_name c =
  let rq := refresh_query database schema table_name in
  let aq := auto_refresh_query database schema table_name in
  match conn_sql c rq with
  | (c1, Raised e) => ([EvSql rq; query_error e], c1, Returned (false, exn_str e))
  | (c1, Returned _) =>
      match conn_sql c1 aq with
      | (c2, Raised e) =>
          ([EvSql rq; EvSql aq; query_error e], c2, Returned (false, exn_str e))
      | (c2, Returned _) => ([EvSql rq; EvSql aq], c2, Returned (true, "Success"))
      end
  end.
Proof.
  unfold Snowflake.repair_table, try_except, bind. rewrite execute_query_run.
  cbv zeta.
  destruct (conn_sql c (refresh_query database schema table_name)) as [c1 [r1|e1]];
    [|reflexivity].
  rewrite execute_query_run.
  destruct (conn_sql c1 (auto_refresh_query database schema table_name))
    as [c2 [r2|e2]]; reflexivity.
Qed.

(** C2: [repair_table] always returns a pair; it is the success pair exactly
    when the REFRESH statement and then the SET AUTO_REFRESH statement both
    return; when REFRESH raises, the pair is a failure with the text of the
    exception and the REFRESH statement is the only one sent, so the
    AUTO_REFRESH statement is not sent. *)
Theorem repair_table_success_iff (database schema table_name : string) (c : Conn) :
  let run := repair_table database schema table_name c in
  let rq := refresh_query database schema table_name in
  let aq := auto_refresh_query database schema table_name in
  (exists ok msg, result_of run = Returned (ok, msg))
  /\ (repair_succeeded run = true <->
      exists c1 rows1 c2 rows2,
        conn_sql c rq = (c1, Returned rows1) /\ conn_sql c1 aq = (c2, Returned rows2))
  /\ (forall c1 e,
        conn_sql c rq = (c1, Raised e) ->
        result_of run = Returned (false, exn_str e)
        /\ queries_of (trace_of run) = [rq]
        /\ ~ In aq (queries_of (trace_of run))).
Proof.
  cbv zeta. rewrite repair_table_run. cbv zeta.
  destruct (conn_sql c (refresh_query database schema table_name))
    as [c1 [r1|e1]] eqn:H1.
  - destruct (conn_sql c1 (auto_refresh_query database schema table_name))
      as [c2 [r2|e2]] eqn:H2; unfold repair_succeeded, result_of, trace_of; simpl;
      (split; [eauto|split]).
    + split; [intros _; exists c1, r1, c2, r2; auto|reflexivity].
    + intros c1' e E. discriminate E.
    + split; [discriminate|].
      intros (c1' & r1' & c2' & r2' & E1 & E2).
      injection E1 as -> _. rewrite H2 in E2. discriminate E2.
    + intros c1' e E. discriminate E.
  - unfold repair_succeeded, result_of, trace_of; simpl. split; [eauto|split].
    + split; [discriminate|].
      intros (c1' & r1' & c2' & r2' & E1 & E2). discriminate E1.
    + intros c1' e E. injection E as _ ->. split; [reflexivity|split; [reflexivity|]].
      intros [E|[]]. symmetry in E. revert E. apply refresh_is_not_auto_refresh.
Qed.

Lemma repair_table_returns (database schema table_name : string) (c : Conn) :
  exists tr c' ok msg,
    repair_table database schema table_name c = (tr, c', Returned (ok, msg)).
Proof.
  rewrite repair_table_run. cbv zeta.
  destruct (conn_sql c _) as [c1 [r1|e1]]; [|eauto 6].
  destruct (conn_sql c1 _) as [c2 [r2|e2]]; eauto 6.
Qed.

(** The loop appends one outcome per table, in order, whatever the repairs
    return. *)
Lemma repair_loop_run (database schema : string) (total_tables : nat)
  (selected_tables : list string) :
  forall (idx : nat) (repair_results : list RepairOutcome) (c : Conn),
  exists tr c' outcomes,
    repair_loop database schema total_tables idx selected_tables repair_results c
    = (tr, c', Returned (repair_results ++ outcomes)%list)
    /\ map repaired_table outcomes = selected_tables.
Proof.
  induction selected_tables as [|t rest IH]; intros idx acc c; simpl.
  - exists [], c, []. rewrite app_nil_r. split; reflexivity.
  - unfold bind at 1, emit at 1.
    unfold bind at 1.
    destruct (repair_table_returns database schema t c) as (tr & c1 & ok & msg & E).
    rewrite E. unfold bind at 1, emit at 1. simpl.
    destruct (IH (S idx) (acc ++ [mk_outcome t ok msg])%list c1)
      as (tr2 & c2 & outs & E2 & Hmap).
    rewrite E2. rewrite <- app_assoc. simpl.
    eexists _, c2, (mk_outcome t ok msg :: outs). split; [reflexivity|].
    simpl. now rewrite Hmap.
Qed.

(** One turn of the loop. *)
Lemma repair_loop_cons (database schema : string) (total_tables idx : nat)
  (t : string) (rest : list string) (acc : list RepairOutcome) (c : Conn) :
  repair_loop database schema total_tables idx (t :: rest) acc c
  = let rt := repair_table database schema t c in
    let status :=
      EvStatusText ("Processing " ++ str_int (Z.of_nat (idx + 1)) ++ "/"
                    ++ str_int (Z.of_nat total_tables) ++ ": " ++ t ++ "...") in
    match result_of rt with
    | Returned sm =>
        let r2 := repair_loop database schema total_tables (S idx) rest
                    (acc ++ [mk_outcome t (fst sm) (snd sm)])%list (conn_of rt) in
        ((status :: trace_of rt) ++ EvProgress (idx + 1) total_tables :: trace_of r2,
         conn_of r2, result_of r2)%list
    | Raised e => (status :: trace_of rt, conn_of rt, Raised e)
    end.
Proof.
  simpl. unfold bind, emit, trace_of, conn_of, result_of.
  destruct (repair_table database schema t c) as [[tr c1] [sm|e]]; simpl;
    [|reflexivity].
  destruct (repair_loop database schema total_tables (S idx) rest _ c1)
    as [[tr2 c2] r2].
  simpl. reflexivity.
Qed.

(** The counters of the progress bar have no bearing on the session or on
    the outcomes. *)
Lemma repair_loop_counters (database schema : string) (selected_tables : list string) :
  forall total total' idx idx' acc c,
    conn_of (repair_loop database schema total idx selected_tables acc c)
    = conn_of (repair_loop database schema total' idx' selected_tables acc c)
    /\ result_of (repair_loop database schema total idx selected_tables acc c)
       = result_of (repair_loop database schema total' idx' selected_tables acc c).
Proof.
  induction selected_tables as [|t rest IH]; intros total total' idx idx' acc c.
  - split; reflexivity.
  - rewrite !repair_loop_cons. cbv zeta.
    destruct (result_of (repair_table database schema t c)) as [sm|e].
    + unfold conn_of at 1 3, result_of at 1 2. cbn [fst snd]. apply IH.
    + split; reflexivity.
Qed.

Lemma repair_loop_app (database schema : string) (total_tables : nat)
  (l1 l2 : list string) :
  forall idx acc c,
    repair_loop database schema total_tables idx (l1 ++ l2) acc c
    = match repair_loop database schema total_tables idx l1 acc c with
      | (tr1, c1, Returned acc1) =>
          let r2 := repair_loop database schema total_tables (idx + List.length l1) l2
                      acc1 c1 in
          (tr1 ++ trace_of r2, conn_of r2, result_of r2)%list
      | (tr1, c1, Raised e) => (tr1, c1, Raised e)
      end.
Proof.
  induction l1 as [|t l1 IH]; intros idx acc c.
  - simpl. unfold ret, trace_of, conn_of, result_of. rewrite Nat.add_0_r.
    destruct (repair_loop database schema total_tables idx l2 acc c) as [[tr c'] r].
    reflexivity.
  - change ((t :: l1) ++ l2)%list with (t :: (l1 ++ l2))%list.
    rewrite !repair_loop_cons. cbv zeta.
    destruct (result_of (repair_table database schema t c)) as [sm|e];
      [|reflexivity].
    rewrite IH.
    replace (idx + List.length (t :: l1))%nat with (S idx + List.length l1)%nat
      by (simpl; lia).
    destruct (repair_loop database schema total_tables (S idx) l1 _ _)
      as [[tr1 c1] [acc1|e]]; unfold trace_of, conn_of, result_of; cbn [fst snd].
    + rewrite <- !app_assoc. reflexivity.
    + reflexivity.
Qed.

(** C3: the batch returns one outcome per selected table, in selection
    order, for every selection.  The outcome of a table is that of its own
    repair in the session state the tables before it left, whatever their
    outcomes, and the tables after it still get their outcomes.  For a
    selection A, B, C in which the two statements of A return, the repair of
    B fails, and the two statements of C return (each in the session state
    it is sent in), the outcomes are success for A, failure for B and
    success for C, and the statements of C are sent after those of B. *)
Theorem batch_repair_continues (database schema : string) (c : Conn) :
  (forall selected_tables,
      exists outcomes,
        result_of (repair_selected database schema selected_tables c)
        = Returned outcomes
        /\ List.length outcomes = List.length selected_tables
        /\ map repaired_table outcomes = selected_tables)
  /\ (forall before t after,
        exists outs1 msg outs2,
          result_of (repair_selected database schema (before ++ t :: after) c)
          = Returned
              (outs1
               ++ mk_outcome t
                    (repair_succeeded
                       (repair_table database schema t
                          (conn_of (repair_selected database schema before c))))
                    msg
               :: outs2)%list
          /\ map repaired_table outs1 = before
          /\ map repaired_table outs2 = after)
  /\ (forall A B C cA1 rA1 cA2 rA2 cC1 rC1 cC2 rC2,
        conn_sql c (refresh_query database schema A) = (cA1, Returned rA1) ->
        conn_sql cA1 (auto_refresh_query database schema A) = (cA2, Returned rA2) ->
        repair_succeeded (repair_table database schema B cA2) = false ->
        conn_sql (conn_of (repair_table database schema B cA2))
          (refresh_query database schema C) = (cC1, Returned rC1) ->
        conn_sql cC1 (auto_refresh_query database schema C) = (cC2, Returned rC2) ->
        exists msgB,
          result_of (repair_selected database schema [A; B; C] c)
          = Returned [mk_outcome A true "Success"; mk_outcome B false msgB;
                      mk_outcome C true "Success"]
          /\ queries_of (trace_of (repair_selected database schema [A; B; C] c))
             = ([refresh_query database schema A; auto_refresh_query database schema A]
                ++ queries_of (trace_of (repair_table database schema B cA2))
                ++ [refresh_query database schema C;
                    auto_refresh_query database schema C])%list).
Proof.
  split; [|split].
  - intros selected_tables. unfold Snowflake.repair_selected.
    destruct (repair_loop_run database schema (List.length selected_tables)
                selected_tables 0 [] c) as (tr & c' & outcomes & E & Hmap).
    rewrite E. exists outcomes. unfold result_of. simpl.
    split; [reflexivity|]. split; [|exact Hmap].
    rewrite <- Hmap. now rewrite length_map.
  - intros before t after. unfold Snowflake.repair_selected.
    rewrite repair_loop_app.
    destruct (repair_loop_counters database schema before
                (List.length before) (List.length (before ++ t :: after)) 0 0 [] c)
      as [Hconn _].
    rewrite Hconn. clear Hconn.
    destruct (repair_loop_run database schema (List.length (before ++ t :: after))
                before 0 [] c) as (tr1 & c1 & outs1 & E1 & Hmap1).
    rewrite E1. cbv zeta. cbn [app]. unfold conn_of at 2. cbn [fst snd].
    rewrite repair_loop_cons. cbv zeta.
    destruct (repair_table_returns database schema t c1)
      as (trt & c2 & ok & msg & Et).
    rewrite Et. unfold repair_succeeded, result_of, conn_of, trace_of.
    cbn [fst snd].
    destruct (repair_loop_run database schema (List.length (before ++ t :: after))
                after (S (0 + List.length before))
                (outs1 ++ [mk_outcome t ok msg])%list c2)
      as (tr3 & c3 & outs2 & E3 & Hmap3).
    rewrite E3. cbn [fst snd].
    exists outs1, msg, outs2. rewrite <- app_assoc. simpl.
    split; [reflexivity|]. split; assumption.
  - intros A B C cA1 rA1 cA2 rA2 cC1 rC1 cC2 rC2 HA1 HA2 HB HC1 HC2.
    destruct (repair_table_returns database schema B cA2)
      as (trB & cB & okB & msgB & EB).
    rewrite EB in HB, HC1 |- *.
    unfold repair_succeeded, result_of, conn_of in HB, HC1. simpl in HB, HC1.
    subst okB. exists msgB.
    unfold Snowflake.repair_selected. simpl.
    unfold bind, emit.
    rewrite (repair_table_run database schema A c). cbv zeta. rewrite HA1, HA2.
    rewrite EB.
    rewrite (repair_table_run database schema C cB). cbv zeta. rewrite HC1, HC2.
    unfold ret, result_of, trace_of. simpl. split; [reflexivity|].
    unfold queries_of. simpl. rewrite !flat_map_app. simpl. reflexivity.
Qed.

(** *** Rows and records *)


Lemma stale_record_two (database schema : string) (a b : value) :
  stale_record database schema [a; b] = Returned (mk_stale a b (VInt 0) database schema).
Proof. reflexivity. Qed.

Lemma stale_record_short (database schema : string) (r : row) :
  (List.length r < 2)%nat -> exists e, stale_record database schema r = Raised e.
Proof.
  destruct r as [|a [|b r]]; simpl; intros H; try lia; unfold stale_record; simpl;
    eauto.
Qed.

Lemma stale_record_long (database schema : string) (r : row) :
  (2 <= List.length r)%nat ->
  exists rec,
    stale_record database schema r = Returned rec /\ record_of_row database schema r rec.
Proof.
  destruct r as [|a [|b [|d rest]]]; simpl; intros H; try lia.
  - eexists. split; [reflexivity|]. unfold record_of_row. simpl.
    repeat split; auto; lia.
  - eexists. split; [reflexivity|]. unfold record_of_row. simpl.
    repeat split; auto; lia.
Qed.

(** C10, amended: when the statement returns rows that all have at least
    two columns, [find_stale_tables] returns one record per row, in order;
    the record of a row with fewer than three columns has a row count of 0,
    and every record carries the database and the schema passed in. *)
Theorem stale_records_follow_rows (database schema : string) (days_threshold : Z)
  (c c1 : Conn) (rows : list row) :
  conn_sql c (stale_query (quote_ident database) (replace_squote schema) days_threshold)
  = (c1, Returned rows) ->
  Forall (fun r => (2 <= List.length r)%nat) rows ->
  exists l,
    result_of (find_stale_tables database schema days_threshold c) = Returned l
    /\ Forall2 (record_of_row database schema) rows l.
Proof.
  intros Hq Hrows. rewrite find_stale_tables_run. cbv zeta. rewrite Hq.
  assert (Hall : Forall (fun r => exists rec, stale_record database schema r = Returned rec)
                   rows).
  { eapply Forall_impl; [|exact Hrows]. intros r Hr.
    destruct (stale_record_long database schema r Hr) as (rec & E & _). eauto. }
  destruct (collect_all _ _ Hall) as [l El]. rewrite El.
  exists l. unfold result_of. simpl. split; [reflexivity|].
  apply collect_length in El. clear Hall Hq.
  induction El as [|r rec rows l Hr _ IH]; constructor.
  - apply Forall_inv in Hrows.
    destruct (stale_record_long database schema r Hrows) as (rec' & E & Hrec).
    congruence.
  - apply IH. eapply Forall_inv_tail. exact Hrows.
Qed.

(** A single row with fewer than two columns empties the whole result:
    the IndexError of the dict literal is caught by the function. *)
Lemma short_row_no_records (database schema : string) (days_threshold : Z)
  (c c1 : Conn) (rows : list row) :
  conn_sql c (stale_query (quote_ident database) (replace_squote schema) days_threshold)
  = (c1, Returned rows) ->
  Exists (fun r => (List.length r < 2)%nat) rows ->
  result_of (find_stale_tables database schema days_threshold c) = Returned [].
Proof.
  intros Hq Hrows. rewrite find_stale_tables_run. cbv zeta. rewrite Hq.
  destruct (collect_raises (stale_record database schema) rows) as [e E].
  - eapply Exists_impl; [|exact Hrows]. intros r Hr.
    apply stale_record_short. exact Hr.
  - rewrite E. reflexivity.
Qed.

(** *** The filter of [find_stale_tables] *)





(** *** More about the functions *)

(** X5: When REFRESH returns and SET AUTO_REFRESH raises, the outcome is a
    failure with the text of that exception although the refresh was done;
    and whatever happens, the statements sent are REFRESH alone or REFRESH
    followed by SET AUTO_REFRESH. *)
Theorem repair_table_partial (database schema table_name : string) (c : Conn) :
  let run := repair_table database schema table_name c in
  let rq := refresh_query database schema table_name in
  let aq := auto_refresh_query database schema table_name in
  (queries_of (trace_of run) = [rq] \/ queries_of (trace_of run) = [rq; aq])
  /\ (forall c1 rows c2 e,
        conn_sql c rq = (c1, Returned rows) ->
        conn_sql c1 aq = (c2, Raised e) ->
        result_of run = Returned (false, exn_str e)
        /\ queries_of (trace_of run) = [rq; aq]
        /\ conn_of run = c2).
Proof.
  cbv zeta. rewrite repair_table_run. cbv zeta.
  destruct (conn_sql c (refresh_query database schema table_name))
    as [c1 [r1|e1]] eqn:H1.
  - destruct (conn_sql c1 (auto_refresh_query database schema table_name))
      as [c2 [r2|e2]] eqn:H2; unfold result_of, trace_of, conn_of; simpl.
    + split; [right; reflexivity|]. intros c1' rows c2' e E1 E2.
      injection E1 as -> _. rewrite H2 in E2. discriminate E2.
    + split; [right; reflexivity|]. intros c1' rows c2' e E1 E2.
      injection E1 as -> _. rewrite H2 in E2. injection E2 as -> ->. auto.
  - unfold result_of, trace_of, conn_of; simpl.
    split; [left; reflexivity|]. intros c1' rows c2' e E1. discriminate E1.
Qed.

Lemma repair_table_no_progress (database schema table_name : string) (c : Conn) :
  progress_of (trace_of (repair_table database schema table_name c)) = [].
Proof.
  rewrite repair_table_run. cbv zeta.
  destruct (conn_sql c _) as [c1 [r1|e1]]; [|reflexivity].
  destruct (conn_sql c1 _) as [c2 [r2|e2]]; reflexivity.
Qed.

Lemma progress_of_app (a b : list event) :
  progress_of (a ++ b) = (progress_of a ++ progress_of b)%list.
Proof. apply flat_map_app. Qed.

Lemma repair_loop_progress (database schema : string) (total_tables : nat)
  (selection : list string) :
  forall idx acc c,
    progress_of
      (trace_of (repair_loop database schema total_tables idx selection acc c))
    = map (fun k => (k, total_tables)) (seq (idx + 1) (List.length selection)).
Proof.
  induction selection as [|t rest IH]; intros idx acc c.
  - reflexivity.
  - rewrite repair_loop_cons. cbv zeta.
    destruct (repair_table_returns database schema t c) as (tr & c1 & ok & msg & E).
    pose proof (repair_table_no_progress database schema t c) as Hnp.
    rewrite E in Hnp |- *. unfold result_of, conn_of, trace_of in *. cbn [fst snd] in *.
    change ((EvStatusText
               ("Processing " ++ str_int (Z.of_nat (idx + 1)) ++ "/"
                ++ str_int (Z.of_nat total_tables) ++ ": " ++ t ++ "...") :: tr)
            ++ EvProgress (idx + 1) total_tables
               :: fst (fst (repair_loop database schema total_tables (S idx) rest
                              (acc ++ [mk_outcome t ok msg]) c1)))%list
      with ([EvStatusText
               ("Processing " ++ str_int (Z.of_nat (idx + 1)) ++ "/"
                ++ str_int (Z.of_nat total_tables) ++ ": " ++ t ++ "...")]
            ++ tr
            ++ [EvProgress (idx + 1) total_tables]
            ++ fst (fst (repair_loop database schema total_tables (S idx) rest
                           (acc ++ [mk_outcome t ok msg]) c1)))%list.
    rewrite !progress_of_app, Hnp.
    specialize (IH (S idx) (acc ++ [mk_outcome t ok msg])%list c1).
    unfold trace_of in IH. rewrite IH. cbn [List.length seq map].
    replace (S idx + 1)%nat with (S (idx + 1)) by lia. reflexivity.
Qed.

(** X6: The progress bar is moved once after each table, to k/n after the k-th
    of n tables: the values are 1/n, 2/n, ..., n/n, so each lies in (0, 1]
    and the last one is 1. *)
Theorem repair_progress_steps (database schema : string) (selection : list string)
  (c : Conn) :
  let n := List.length selection in
  let steps := progress_of (trace_of (repair_selected database schema selection c)) in
  steps = map (fun k => (k, n)) (seq 1 n)
  /\ Forall (fun p => (1 <= fst p <= snd p)%nat /\ snd p = n) steps
  /\ (selection <> [] -> last steps (0, 0)%nat = (n, n)).
Proof.
  cbv zeta. unfold Snowflake.repair_selected. rewrite repair_loop_progress.
  cbn [Nat.add]. split; [reflexivity|]. split.
  - apply Forall_forall. intros p Hp. apply in_map_iff in Hp.
    destruct Hp as (k & <- & Hk). apply in_seq in Hk. simpl. lia.
  - intros Hne. destruct selection as [|t rest]; [congruence|].
    cbn [List.length]. rewrite seq_S, map_app. simpl. apply last_last.
Qed.

(** X3: [list_schemas] sends one statement; when every row has a first column
    the names are the [str] of those, row by row in the order returned; one
    row without columns makes the whole result empty, with the IndexError
    reported. *)
Theorem list_schemas_names (database : string) (c c1 : Conn) (rows : list row) :
  conn_sql c (schemata_query (quote_ident database)) = (c1, Returned rows) ->
  queries_of (trace_of (list_schemas database c))
  = [schemata_query (quote_ident database)]
  /\ (Forall (fun r => r <> []) rows ->
      exists names,
        result_of (list_schemas database c) = Returned names
        /\ Forall2 (fun r name =>
                      exists v, hd_error r = Some v /\ name = py_str str_timestamp v)
             rows names)
  /\ (Exists (fun r => r = []) rows ->
      result_of (list_schemas database c) = Returned []
      /\ In (schemas_error (mk_exn "IndexError" "tuple index out of range"))
           (trace_of (list_schemas database c))).
Proof.
  intros Hq. rewrite list_schemas_run. cbv zeta. rewrite Hq.
  split; [|split].
  - destruct (collect _ rows); reflexivity.
  - intros Hrows.
    assert (Hall : Forall (fun r => exists b, schema_name str_timestamp r = Returned b)
                     rows).
    { eapply Forall_impl; [|exact Hrows]. intros [|v r] Hr; [congruence|].
      eexists. reflexivity. }
    destruct (collect_all _ _ Hall) as [names E]. rewrite E. exists names.
    split; [reflexivity|]. apply collect_length in E. clear Hall Hrows Hq.
    induction E as [|r name rows names Hr _ IH]; constructor; [|exact IH].
    destruct r as [|v r]; [discriminate Hr|]. injection Hr as <-.
    exists v. split; reflexivity.
  - intros Hrows.
    assert (E : collect (schema_name str_timestamp) rows
                = Raised (mk_exn "IndexError" "tuple index out of range")).
    { clear Hq. induction Hrows as [r rows ->|r rows _ IH]; simpl.
      - reflexivity.
      - destruct (schema_name str_timestamp r) as [b|e] eqn:Hr.
        + rewrite IH. reflexivity.
        + destruct r; [|discriminate Hr]. simpl in Hr. injection Hr as <-.
          reflexivity. }
    rewrite E. unfold result_of, trace_of. simpl. auto.
Qed.

(** X7: The button that looks for stale tables never raises and stores the list
    found under the key stale_tables, leaving the two other keys alone; it
    warns when the list is not empty and announces that all tables were
    refreshed when it is empty.  When the statement raises, the error is
    reported and that announcement is still made. *)
Theorem find_stale_button_outcome (database schema : string) (days_threshold : Z)
  (ss : session_state) (c : Conn) :
  exists tr c1 found,
    find_stale_button Conn conn_sql conn_has_sql database schema days_threshold ss c
    = (tr, c1, mk_session (Some found) (selected_tables ss) (repair_results ss),
       Returned tt)
    /\ result_of (find_stale_tables database schema days_threshold c) = Returned found
    /\ (found <> [] -> exists msg, widgets_of tr = [WWarning msg])
    /\ (found = [] ->
        widgets_of tr
        = [WSuccess ("✅ All tables in " ++ database ++ "." ++ schema
                     ++ " have been refreshed recently!")])
    /\ (forall c2 e,
          conn_sql c (stale_query (quote_ident database) (replace_squote schema)
                        days_threshold) = (c2, Raised e) ->
          found = [] /\ In (Ev (stale_error e)) tr).
Proof.
  unfold Snowflake.find_stale_button. rewrite find_stale_tables_run. cbv zeta.
  assert (Hw : forall tr : list event, widgets_of (map Ev tr) = []).
  { induction tr as [|ev tr IH]; simpl; auto. }
  destruct (conn_sql c _) as [c1 [rows|e]].
  - destruct (collect (stale_record database schema) rows) as [found|e].
    + exists (map Ev [EvSql (stale_query (quote_ident database)
                                (replace_squote schema) days_threshold)]
              ++ [Widget
                    match found with
                    | [] =>
                        WSuccess ("✅ All tables in " ++ database ++ "." ++ schema
                                  ++ " have been refreshed recently!")
                    | _ :: _ =>
                        WWarning ("⚠️ Found "
                                  ++ str_int (Z.of_nat (List.length found))
                                  ++ " table(s) that haven't been refreshed in the last "
                                  ++ str_int days_threshold ++ " day(s)")
                    end])%list, c1, found.
      split; [reflexivity|]. split; [reflexivity|].
      split; [|split].
      * intros Hne. destruct found; [congruence|]. eexists. reflexivity.
      * intros ->. reflexivity.
      * intros c2 e E. discriminate E.
    + eexists _, c1, []. split; [reflexivity|]. split; [reflexivity|].
      split; [congruence|]. split; [reflexivity|].
      intros c2 e' E. discriminate E.
  - eexists _, c1, []. split; [reflexivity|]. split; [reflexivity|].
    split; [congruence|]. split; [reflexivity|].
    intros c2 e' E. injection E as _ <-. split; [reflexivity|]. simpl. auto.
Qed.

(** X8: For a selection that is not empty, the repair button never raises: it
    stores under the key repair_results the outcomes of the batch, one per
    selected table in selection order, leaves the two other keys alone, and
    shows them in the results table. *)
Theorem repair_button_stores_outcomes (database schema : string)
  (selection : list string) (ss : session_state) (c : Conn) :
  selection <> [] ->
  exists tr c1 results,
    repair_button Conn conn_sql conn_has_sql database schema selection ss c
    = (tr, c1, mk_session (stale_tables ss) (selected_tables ss) (Some results),
       Returned tt)
    /\ result_of (repair_selected database schema selection c) = Returned results
    /\ map repaired_table results = selection
    /\ In (Widget (WTable (map result_row results))) tr.
Proof.
  intros Hne. destruct selection as [|t rest]; [congruence|].
  unfold Snowflake.repair_button, Snowflake.repair_selected.
  destruct (repair_loop_run database schema (List.length (t :: rest)) (t :: rest) 0 [] c)
    as (tr & c1 & results & E & Hmap).
  rewrite E. cbn [app]. destruct results as [|o os]; [discriminate Hmap|].
  eexists _, c1, (o :: os). split; [reflexivity|].
  split; [reflexivity|]. split; [exact Hmap|].
  assert (Htable : In (Widget (WTable (map result_row (o :: os))))
                     (fst (report_results (o :: os)))).
  { unfold report_results. cbn [fst]. rewrite !in_app_iff.
    right. right. right. left. left. reflexivity. }
  right. right. apply in_or_app. right. right. right. exact Htable.
Qed.

End Runs.

(** *** Session state, connection, report and preview *)

(** X1: After [initialize_session_state] the three keys are set; a key that was
    set keeps its value, a key that was missing holds the empty list, and
    running it again changes nothing. *)
Theorem initialize_session_state_keeps (ss : session_state) :
  let ss' := initialize_session_state ss in
  (exists a b d, ss' = mk_session (Some a) (Some b) (Some d))
  /\ (forall v, stale_tables ss = Some v -> stale_tables ss' = Some v)
  /\ (forall v, selected_tables ss = Some v -> selected_tables ss' = Some v)
  /\ (forall v, repair_results ss = Some v -> repair_results ss' = Some v)
  /\ (stale_tables ss = None -> stale_tables ss' = Some [])
  /\ (selected_tables ss = None -> selected_tables ss' = Some [])
  /\ (repair_results ss = None -> repair_results ss' = Some [])
  /\ initialize_session_state ss' = ss'.
Proof.
  destruct ss as [[a|] [b|] [d|]]; cbv zeta; unfold initialize_session_state; simpl;
    repeat split; eauto; congruence.
Qed.

(** X2: [get_snowflake_connection] prefers the active session of
    [Session.builder.getActive()] and then tries nothing else; it returns
    [None] exactly when the three ways fail, and exactly then it reports the
    error. *)
Theorem get_snowflake_connection_fallback {Conn : Type} (rt : Runtime Conn) :
  let r := get_snowflake_connection rt in
  (forall session,
      getActive rt = Returned (Some session) -> r = ([CallGetActive], Some session))
  /\ (snd r = None <->
      (forall session, getActive rt <> Returned (Some session))
      /\ (forall session, get_active_session rt <> Returned (Some session))
      /\ (st_has_connection rt = false \/ exists e, st_connection rt = Raised e))
  /\ (snd r = None <->
      In (ConnError ("❌ Error getting Snowflake connection: "
                     ++ exn_str could_not_connect)) (fst r)).
Proof.
  cbv zeta. unfold get_snowflake_connection.
  destruct rt as [m1 m2 h3 m3]; cbn [getActive get_active_session st_has_connection
                                      st_connection].
  split; [intros session ->; reflexivity|].
  destruct m1 as [[s1|]|e1]; destruct m2 as [[s2|]|e2]; destruct h3;
    destruct m3 as [c3|e3]; simpl; (split; split);
    first
      [ discriminate
      | solve [intros; reflexivity]
      | solve [intros _; repeat split; first [congruence | eauto]]
      | solve [intros (H1 & H2 & H3); exfalso;
               first [ eapply H1; reflexivity
                     | eapply H2; reflexivity
                     | destruct H3 as [H|[e H]]; discriminate H ]]
      | solve [intros H; repeat (destruct H as [H|H]; try discriminate H); destruct H]
      | solve [intros _; auto 10] ].
Qed.

(** X9: The two counts of the report add up to the number of outcomes and the
    failure count is the number of failed rows shown.  An empty list makes
    the report raise KeyError; otherwise it returns, the balloons are shown
    exactly when every repair succeeded and the failure banner exactly when
    one failed. *)
Theorem report_results_counts (results : list RepairOutcome) :
  (success_count results + failure_count results = List.length results)%nat
  /\ failure_count results
     = List.length (filter (fun r => negb (success r)) results)
  /\ (results = [] ->
      snd (report_results results) = Raised (mk_exn "KeyError" "'success'"))
  /\ (results <> [] -> snd (report_results results) = Returned tt)
  /\ (In (Widget WBalloons) (fst (report_results results)) <->
      results <> [] /\ forallb success results = true)
  /\ (In (Ev (EvStError ("❌ Failed to repair "
                          ++ str_int (Z.of_nat (failure_count results))
                          ++ " table(s)")))
         (fst (report_results results)) <->
      results <> [] /\ forallb success results = false).
Proof.
  assert (Hlen : forall l : list RepairOutcome,
             (List.length (filter success l)
              + List.length (filter (fun r => negb (success r)) l)
              = List.length l)%nat).
  { induction l as [|r l IH]; simpl; [reflexivity|].
    destruct (success r); simpl; lia. }
  assert (Hfc : failure_count results
                = List.length (filter (fun r => negb (success r)) results)).
  { unfold failure_count, success_count. specialize (Hlen results). lia. }
  assert (Hall : forallb success results = true <-> failure_count results = 0%nat).
  { rewrite Hfc. clear. induction results as [|r l IH]; simpl; [tauto|].
    destruct (success r); simpl; [exact IH|]. split; discriminate. }
  assert (Hdetail : forall l (u : ui_event),
             In u (flat_map failed_detail l) ->
             (exists label, u = Widget (WExpander label))
             \/ (exists msg, u = Ev (EvStError ("Error: " ++ msg)))).
  { intros l u Hu. apply in_flat_map in Hu. destruct Hu as (r & _ & [<-|[<-|[]]]); eauto. }
  split; [unfold failure_count, success_count; specialize (Hlen results); lia|].
  split; [exact Hfc|].
  split; [intros ->; reflexivity|].
  split; [destruct results; [congruence|reflexivity]|].
  destruct results as [|r0 rest].
  { split; split; simpl.
    - intros [H|[H|[]]]; discriminate H.
    - intros [H _]. congruence.
    - intros [H|[H|[]]]; discriminate H.
    - intros [H _]. congruence. }
  unfold report_results. cbn [fst]. set (results := r0 :: rest) in *.
  assert (Hne : results <> []) by (unfold results; discriminate).
  clearbody results.
  split.
  - rewrite !in_app_iff. split.
    + intros [H|[H|[H|[H|[H|H]]]]].
      * destruct H as [H|[H|[]]]; discriminate H.
      * destruct (0 <? success_count results)%nat;
          [destruct H as [H|[]]; discriminate H|destruct H].
      * destruct (0 <? failure_count results)%nat;
          [destruct H as [H|[]]; discriminate H|destruct H].
      * destruct H as [H|[]]. discriminate H.
      * destruct (0 <? List.length _)%nat; [|destruct H].
        destruct H as [H|H]; [discriminate H|].
        apply Hdetail in H. destruct H as [(l & H)|(m & H)]; discriminate H.
      * destruct (failure_count results =? 0)%nat eqn:Hz; [|destruct H].
        apply Nat.eqb_eq in Hz. split; [congruence|]. apply Hall. exact Hz.
    + intros [_ H]. apply Hall in H. rewrite H. cbn [Nat.eqb].
      right. right. right. right. right. left. reflexivity.
  - rewrite !in_app_iff. split.
    + intros [H|[H|[H|[H|[H|H]]]]].
      * destruct H as [H|[H|[]]]; discriminate H.
      * destruct (0 <? success_count results)%nat;
          [destruct H as [H|[]]; discriminate H|destruct H].
      * destruct (0 <? failure_count results)%nat eqn:Hz; [|destruct H].
        apply Nat.ltb_lt in Hz. split; [congruence|].
        destruct (forallb success results) eqn:Hf; [|reflexivity].
        destruct Hall as [Hall _]. specialize (Hall eq_refl). lia.
      * destruct H as [H|[]]. discriminate H.
      * destruct (0 <? List.length _)%nat; [|destruct H].
        destruct H as [H|H]; [discriminate H|].
        apply Hdetail in H. destruct H as [(l & H)|(m & H)]; [discriminate H|].
        injection H as H. exfalso. revert H. clear.
        intros H. discriminate H.
      * destruct (failure_count results =? 0)%nat; [|destruct H].
        destruct H as [H|[H|[]]]; discriminate H.
    + intros [_ H].
      assert (Hpos : (0 < failure_count results)%nat).
      { destruct (failure_count results) eqn:Hz; [|lia].
        destruct Hall as [_ Hall]. specialize (Hall eq_refl). congruence. }
      apply Nat.ltb_lt in Hpos. rewrite Hpos.
      right. right. left. left. reflexivity.
Qed.

(** The last character of a text decides between two texts. *)
Lemma append_last_differs (x y : ascii) (a b : string) :
  x <> y -> a ++ String x EmptyString <> b ++ String y EmptyString.
Proof.
  intros Hxy. revert b. induction a as [|ch a IH]; intros [|ch' b]; simpl; intros H.
  - injection H as H. contradiction.
  - injection H as _ H. destruct b; discriminate H.
  - injection H as _ H. destruct a; discriminate H.
  - injection H as _ H. exact (IH b H).
Qed.

(** X10: The preview does not show the statement that is executed.  Its
    REFRESH line ends in a semicolon (line 375) and the statement
    [repair_table] sends does not (line 162), so the line is never the
    statement.  With the semicolon set aside the two still differ: the
    preview leaves the database and schema names as typed, while
    [repair_table] quotes them, so the line differs from the statement
    followed by a semicolon whenever the database name does not start with a
    double quote; it is the statement followed by a semicolon when database
    and schema are typed quoted and the table is not. *)
Theorem preview_differs_from_executed (database schema table_name : string) :
  preview_refresh_line database schema table_name
  <> refresh_query database schema table_name
  /\ (startswith database dquote = false ->
      preview_refresh_line database schema table_name
      <> refresh_query database schema table_name ++ ";")
  /\ (startswith database dquote = true ->
      startswith schema dquote = true ->
      startswith table_name dquote = false ->
      preview_refresh_line database schema table_name
      = refresh_query database schema table_name ++ ";").
Proof.
  assert (Hassoc : forall a b d : string, (a ++ b) ++ d = a ++ b ++ d).
  { induction a as [|ch a IH]; intros b d; simpl; [reflexivity|]. now rewrite IH. }
  unfold preview_refresh_line, refresh_query, iceberg_table. split; [|split].
  - intros H.
    change " REFRESH;" with (" REFRESH" ++ ";") in H.
    change " REFRESH" with (" REFRES" ++ "H") in H at 2.
    rewrite <- !Hassoc in H.
    revert H. apply append_last_differs. intros E. discriminate E.
  - intros Hdb H. rewrite !Hassoc in H. apply append_inv_head in H.
    unfold quote_ident in H. rewrite Hdb in H. cbn [negb] in H.
    unfold startswith, dquote in Hdb.
    destruct database as [|ch rest]; simpl in H, Hdb.
    + discriminate H.
    + injection H as Hch _. subst ch. simpl in Hdb.
      destruct rest; discriminate Hdb.
  - intros Hdb Hsch Ht. unfold quote_ident. rewrite Hdb, Hsch, Ht. cbn [negb].
    rewrite !Hassoc. reflexivity.
Qed.

(** X4: Doubling the single quotes loses nothing: two schema names with the
    same escaped text are the same name; a name without a single quote is
    left as it is. *)
Theorem replace_squote_injective (s1 s2 : string) :
  (replace_squote s1 = replace_squote s2 <-> s1 = s2)
  /\ ((forall ch, In ch (list_ascii_of_string s1) -> ch <> ascii_of_nat 39) ->
      replace_squote s1 = s1).
Proof.
  split.
  - split; [|intros ->; reflexivity].
    revert s2. induction s1 as [|c1 r1 IH]; intros [|c2 r2]; simpl.
    + reflexivity.
    + destruct (Ascii.eqb c2 (ascii_of_nat 39)); discriminate.
    + destruct (Ascii.eqb c1 (ascii_of_nat 39)); discriminate.
    + destruct (Ascii.eqb_spec c1 (ascii_of_nat 39)) as [->|H1];
        destruct (Ascii.eqb_spec c2 (ascii_of_nat 39)) as [->|H2]; simpl; intros H.
      * injection H as H. f_equal. auto.
      * injection H as Hc _. congruence.
      * injection H as Hc _. congruence.
      * injection H as -> H. f_equal. auto.
  - induction s1 as [|c1 r1 IH]; simpl; intros H; [reflexivity|].
    destruct (Ascii.eqb_spec c1 (ascii_of_nat 39)) as [->|H1].
    + exfalso. apply (H (ascii_of_nat 39)); auto.
    + f_equal. apply IH. intros ch Hch. apply H. auto.
Qed.

(** *** The functions on concrete sessions *)



Lemma batch_repair_continues_witness :
  repair_succeeded
    (repair_table _ scripted_session true "DB" "S" "T2" (skipn 2 sample_script)) = false
  /\ exists msgB,
      result_of
        (repair_selected _ scripted_session true "DB" "S" ["T1"; "T2"; "T3"] sample_script)
      = Returned [mk_outcome "T1" true "Success"; mk_outcome "T2" false msgB;
                  mk_outcome "T3" true "Success"]
      /\ queries_of
           (trace_of
              (repair_selected _ scripted_session true "DB" "S" ["T1"; "T2"; "T3"]
                 sample_script))
         = ([refresh_query "DB" "S" "T1"; auto_refresh_query "DB" "S" "T1"]
            ++ queries_of
                 (trace_of
                    (repair_table _ scripted_session true "DB" "S" "T2"
                       (skipn 2 sample_script)))
            ++ [refresh_query "DB" "S" "T3"; auto_refresh_query "DB" "S" "T3"])%list.
Proof.
  split; [reflexivity|].
  apply (proj2 (proj2 (batch_repair_continues _ scripted_session true "DB" "S"
                         sample_script))
           "T1" "T2" "T3" (skipn 1 sample_script) [] (skipn 2 sample_script) []
           (skipn 4 sample_script) [] (skipn 5 sample_script) []);
    reflexivity.
Defined.

(** A row of two columns gets a row count of 0. *)
Lemma stale_records_follow_rows_witness :
  exists l,
    result_of
      (find_stale_tables unit (constant_session [[VStr "T"; VTimestamp 5]]) true
         "DB" "S" 1 tt) = Returned l
    /\ Forall2 (record_of_row "DB" "S") [[VStr "T"; VTimestamp 5]] l.
Proof.
  apply (stale_records_follow_rows unit (constant_session [[VStr "T"; VTimestamp 5]])
           true "DB" "S" 1%Z tt tt [[VStr "T"; VTimestamp 5]]).
  - reflexivity.
  - repeat constructor.
Defined.

(** C10 as stated fails: the session returns two rows, the second with a
    single column; [find_stale_tables] reports an error and returns the
    empty list, so no record is produced for either row. *)
Lemma one_column_row_gives_no_record :
  constant_session [[VStr "T1"; VTimestamp 5; VInt 3]; [VStr "T2"]] tt
    (stale_query (quote_ident "DB") (replace_squote "S") 1)
  = (tt, Returned [[VStr "T1"; VTimestamp 5; VInt 3]; [VStr "T2"]])
  /\ find_stale_tables unit
       (constant_session [[VStr "T1"; VTimestamp 5; VInt 3]; [VStr "T2"]]) true
       "DB" "S" 1 tt
     = ([EvSql (stale_query (quote_ident "DB") (replace_squote "S") 1);
         stale_error (mk_exn "IndexError" "tuple index out of range")],
        tt, Returned []).
Proof. split; vm_compute; reflexivity. Qed.

(** Two schema rows, the second an integer: the names are their [str]. *)
Lemma list_schemas_names_witness :
  queries_of
    (trace_of
       (list_schemas unit (constant_session [[VStr "GOLD"]; [VInt 7]]) true
          (fun _ => "") "DB" tt))
  = [schemata_query (quote_ident "DB")]
  /\ (Forall (fun r : row => r <> []) [[VStr "GOLD"]; [VInt 7]] ->
      exists names,
        result_of
          (list_schemas unit (constant_session [[VStr "GOLD"]; [VInt 7]]) true
             (fun _ => "") "DB" tt) = Returned names
        /\ Forall2 (fun r name =>
                      exists v, hd_error r = Some v /\ name = py_str (fun _ => "") v)
             [[VStr "GOLD"]; [VInt 7]] names)
  /\ (Exists (fun r : row => r = []) [[VStr "GOLD"]; [VInt 7]] ->
      result_of
        (list_schemas unit (constant_session [[VStr "GOLD"]; [VInt 7]]) true
           (fun _ => "") "DB" tt) = Returned []
      /\ In (schemas_error (mk_exn "IndexError" "tuple index out of range"))
           (trace_of
              (list_schemas unit (constant_session [[VStr "GOLD"]; [VInt 7]]) true
                 (fun _ => "") "DB" tt))).
Proof.
  apply (list_schemas_names unit (constant_session [[VStr "GOLD"]; [VInt 7]]) true
           (fun _ => "") "DB" tt tt [[VStr "GOLD"]; [VInt 7]]).
  reflexivity.
Defined.

Example list_schemas_sample :
  result_of
    (list_schemas unit (constant_session [[VStr "GOLD"]; [VInt 7]]) true
       (fun _ => "") "DB" tt) = Returned ["GOLD"; "7"].
Proof. reflexivity. Qed.

Lemma repair_button_stores_outcomes_witness :
  ["T1"; "T2"; "T3"] <> []
  /\ exists tr c1 results,
      repair_button _ scripted_session true "DB" "S" ["T1"; "T2"; "T3"]
        (mk_session None None None) sample_script
      = (tr, c1, mk_session None None (Some results), Returned tt)
      /\ result_of
           (repair_selected _ scripted_session true "DB" "S" ["T1"; "T2"; "T3"]
              sample_script) = Returned results
      /\ map repaired_table results = ["T1"; "T2"; "T3"]
      /\ In (Widget (WTable (map result_row results))) tr.
Proof.
  split; [discriminate|].
  apply (repair_button_stores_outcomes _ scripted_session true "DB" "S"
           ["T1"; "T2"; "T3"] (mk_session None None None) sample_script).
  discriminate.
Defined.

(** The widgets of the batch in which the second repair fails: no balloons. *)
Example repair_button_sample :
  widgets_of
    (fst (fst (fst (repair_button _ scripted_session true "DB" "S" ["T1"; "T2"; "T3"]
                      (mk_session None None None) sample_script))))
  = [WProgressBar; WStatusText; WProgressEmpty; WStatusEmpty; WDivider;
     WHeader "✅ Repair Results";
     WSuccess "✅ Successfully repaired 2 table(s)";
     WTable [("T1", "✅ Success", "Success");
             ("T2", "❌ Failed", "Table T2 does not exist");
             ("T3", "✅ Success", "Success")];
     WWarning "⚠️ Some tables failed to repair. Details:";
     WExpander "❌ T2"].
Proof. vm_compute. reflexivity. Qed.

End SnowflakeFacts.

(** ** Properties of databricks_create_mdlh_setup.py *)
Module DatabricksFacts.
Import Py Databricks.

Section Runs.

Variable P : Platform.
Variable environ : string -> option string.

Local Abbreviation state := (Databricks.state P).
Local Abbreviation M := (Databricks.M P).
Local Abbreviation try_candidate := (Databricks.try_candidate P environ).
Local Abbreviation detect_loop := (Databricks.detect_loop P environ).
Local Abbreviation detect_catalog := (Databricks.detect_catalog P environ).
Local Abbreviation connect_to_catalog := (Databricks.connect_to_catalog P environ).
Local Abbreviation list_namespaces := (Databricks.list_namespaces P environ).
Local Abbreviation list_tables := (Databricks.list_tables P environ).
Local Abbreviation sync_table := (Databricks.sync_table P environ).
Local Abbreviation sync_namespace := (Databricks.sync_namespace P environ).
Local Abbreviation sync_namespaces := (Databricks.sync_namespaces P environ).
Local Abbreviation probe := (Databricks.probe P environ).
Local Abbreviation statement_sql := (Databricks.statement_sql environ).
Local Abbreviation HISTORY_NAMESPACE_SYNC := (Databricks.HISTORY_NAMESPACE_SYNC environ).

(** *** Candidate detection *)

Lemma try_candidate_run (candidate : string) (s : state) :
  exists tr,
    try_candidate candidate s
    = (tr, mk_state P (fst (probe (world P s) candidate)) (reader P s),
       Returned (if snd (probe (world P s) candidate)
                 then Some (candidate, candidate) else None))
    /\ catalogs_tried tr = [candidate].
Proof.
  unfold Databricks.try_candidate, Databricks.probe, try_except, bind,
    do_load_catalog, call, log, ret.
  destruct (load_catalog P (world P s) candidate _) as [w1 [cat|e]]; simpl.
  - destruct (catalog_list_namespaces P w1 cat) as [w2 [[|ns nss]|e]]; simpl;
      eexists; split; reflexivity.
  - eexists; split; reflexivity.
Qed.

Lemma detect_catalog_run (s : state) :
  let p1 := probe (world P s) "atlan-wh" in
  let p2 := probe (fst p1) "context_store" in
  exists tr,
    detect_catalog s
    = (tr, mk_state P (if snd p1 then fst p1 else fst p2) (reader P s),
       if snd p1 then Returned ("atlan-wh", "atlan-wh")
       else if snd p2 then Returned ("context_store", "context_store")
            else Raised (mk_exn "RuntimeError" "No valid Polaris catalog found"))
    /\ catalogs_tried tr
       = (if snd p1 then ["atlan-wh"] else ["atlan-wh"; "context_store"]).
Proof.
  cbv zeta. unfold Databricks.detect_catalog, Databricks.detect_loop.
  unfold bind at 1, log at 1. unfold bind at 1.
  destruct (try_candidate_run "atlan-wh" s) as (tr1 & E1 & T1). rewrite E1.
  destruct (snd (probe (world P s) "atlan-wh")) eqn:Hp1.
  - unfold ret. simpl. rewrite app_nil_r. eexists. split; [reflexivity|exact T1].
  - unfold bind at 1.
    destruct (try_candidate_run "context_store"
                (mk_state P (fst (probe (world P s) "atlan-wh")) (reader P s)))
      as (tr2 & E2 & T2).
    cbn [world reader] in E2. rewrite E2.
    destruct (snd (probe (fst (probe (world P s) "atlan-wh")) "context_store"));
      unfold ret, raise; simpl; eexists; (split; [reflexivity|]);
      unfold catalogs_tried in *; simpl; rewrite !flat_map_app, T1, T2;
      simpl; reflexivity.
Qed.

(** C1: [detect_catalog] tries atlan-wh first and context_store second.  It
    returns the first of the two for which [load_catalog] returns and the
    namespaces listed are not empty, context_store only when atlan-wh did
    not qualify (and then after atlan-wh was tried), and it raises
    RuntimeError when neither qualifies; when atlan-wh qualifies,
    context_store is not tried. *)
Theorem detect_catalog_order (s : state) :
  let p1 := probe (world P s) "atlan-wh" in
  let p2 := probe (fst p1) "context_store" in
  let r := detect_catalog s in
  result_of r
  = (if snd p1 then Returned ("atlan-wh", "atlan-wh")
     else if snd p2 then Returned ("context_store", "context_store")
          else Raised (mk_exn "RuntimeError" "No valid Polaris catalog found"))
  /\ catalogs_tried (trace_of r)
     = (if snd p1 then ["atlan-wh"] else ["atlan-wh"; "context_store"])
  /\ (result_of r = Returned ("context_store", "context_store") -> snd p1 = false).
Proof.
  cbv zeta. destruct (detect_catalog_run s) as (tr & E & T). cbv zeta in E, T.
  rewrite E. unfold result_of, trace_of. simpl.
  split; [reflexivity|]. split; [exact T|].
  destruct (snd (probe (world P s) "atlan-wh")); [discriminate|reflexivity].
Qed.

(** *** The namespace loop *)

Lemma for__app {A : Type} (body : A -> M unit) (l1 l2 : list A) (s : state) :
  for_ P body (l1 ++ l2) s
  = match for_ P body l1 s with
    | (tr1, s1, Returned _) =>
        (tr1 ++ trace_of (for_ P body l2 s1), state_of (for_ P body l2 s1),
         result_of (for_ P body l2 s1))%list
    | (tr1, s1, Raised e) => (tr1, s1, Raised e)
    end.
Proof.
  revert s. induction l1 as [|a l1 IH]; intros s; simpl.
  - unfold ret, trace_of, state_of, result_of.
    destruct (for_ P body l2 s) as [[tr s'] r]. reflexivity.
  - unfold bind. destruct (body a s) as [[tr s1] [[]|e]]; [|reflexivity].
    rewrite IH. destruct (for_ P body l1 s1) as [[tr1 s2] [[]|e]]; simpl.
    + now rewrite app_assoc.
    + reflexivity.
Qed.

Lemma for__cons {A : Type} (body : A -> M unit) (a : A) (l : list A) (s : state) :
  for_ P body (a :: l) s
  = match body a s with
    | (tr1, s1, Returned _) =>
        (tr1 ++ trace_of (for_ P body l s1), state_of (for_ P body l s1),
         result_of (for_ P body l s1))%list
    | (tr1, s1, Raised e) => (tr1, s1, Raised e)
    end.
Proof.
  simpl. unfold bind, trace_of, state_of, result_of.
  destruct (body a s) as [[tr s1] [[]|e]]; [|reflexivity].
  destruct (for_ P body l s1) as [[tr1 s2] r]. reflexivity.
Qed.

(** The turn of a namespace that is the history namespace while the flag is
    off: one log record, nothing else. *)
Lemma sync_namespace_skip (s : state) :
  HISTORY_NAMESPACE_SYNC = false ->
  sync_namespace "atlan-history" s = ([EvLog InfoSkippingHistory], s, Returned tt).
Proof.
  intros H. unfold Databricks.sync_namespace. rewrite H. reflexivity.
Qed.

(** The turn of a namespace whose schema cannot be created. *)
Lemma sync_namespace_schema_fails (N : string) (s : state) (w2 : World P) (e : exn) :
  String.eqb N "atlan-history" && negb HISTORY_NAMESPACE_SYNC = false ->
  spark_sql P (world P s) (statement_sql (CreateSchema N)) = (w2, Raised e) ->
  sync_namespace N s
  = ([EvLog (InfoProcessing N); EvSparkSql (CreateSchema N); EvLog (ErrorSchema N e)],
     mk_state P w2 (reader P s), Returned tt).
Proof.
  intros Hskip Hsql. unfold Databricks.sync_namespace. rewrite Hskip.
  unfold bind, log, try_except, do_spark_sql, call, ret. rewrite Hsql. reflexivity.
Qed.

(** The turn of a namespace whose tables cannot be listed. *)
Lemma sync_namespace_listing_fails (N : string) (s : state) (w2 : World P) (e : exn) :
  String.eqb N "atlan-history" && negb HISTORY_NAMESPACE_SYNC = false ->
  spark_sql P (world P s) (statement_sql (CreateSchema N)) = (w2, Returned tt) ->
  result_of (list_tables N (mk_state P w2 (reader P s))) = Raised e ->
  sync_namespace N s
  = ((EvLog (InfoProcessing N) :: EvSparkSql (CreateSchema N)
        :: trace_of (list_tables N (mk_state P w2 (reader P s))))
     ++ [EvLog (ErrorListing N e)],
     state_of (list_tables N (mk_state P w2 (reader P s))), Returned tt)%list.
Proof.
  intros Hskip Hsql Hlist. unfold Databricks.sync_namespace. rewrite Hskip.
  unfold bind at 1, log at 1. unfold bind at 1.
  unfold try_except at 1, bind at 1, do_spark_sql, call. rewrite Hsql.
  unfold ret at 1. cbn [negb]. unfold bind at 1, try_except at 1, bind at 1.
  destruct (list_tables N (mk_state P w2 (reader P s))) as [[tr s'] r].
  unfold result_of in Hlist. simpl in Hlist. subst r.
  unfold bind, log, ret, trace_of, state_of. simpl. now rewrite app_nil_r.
Qed.

(** C5: when the namespaces before N have been processed and the CREATE
    SCHEMA statement of N raises, the only call made for N is that
    statement (no table is listed, loaded or created), and the run goes on
    with the namespaces after N from the state reached: its events, final
    state and result are those of the loop over the rest.  The same holds
    when the schema is created and listing the tables of N raises. *)
Theorem schema_failure_skips_namespace (before after : list string) (N : string)
  (s : state) (w2 : World P) (e : exn) :
  let r1 := sync_namespaces before s in
  result_of r1 = Returned tt ->
  String.eqb N "atlan-history" && negb HISTORY_NAMESPACE_SYNC = false ->
  (spark_sql P (world P (state_of r1)) (statement_sql (CreateSchema N)) = (w2, Raised e) ->
   let r2 := sync_namespaces after (mk_state P w2 (reader P (state_of r1))) in
   sync_namespaces (before ++ N :: after) s
   = (trace_of r1
      ++ [EvLog (InfoProcessing N); EvSparkSql (CreateSchema N); EvLog (ErrorSchema N e)]
      ++ trace_of r2,
      state_of r2, result_of r2)%list)
  /\ (spark_sql P (world P (state_of r1)) (statement_sql (CreateSchema N))
      = (w2, Returned tt) ->
      let l := list_tables N (mk_state P w2 (reader P (state_of r1))) in
      result_of l = Raised e ->
      let r2 := sync_namespaces after (state_of l) in
      sync_namespaces (before ++ N :: after) s
      = (trace_of r1
         ++ (EvLog (InfoProcessing N) :: EvSparkSql (CreateSchema N) :: trace_of l)
         ++ [EvLog (ErrorListing N e)] ++ trace_of r2,
         state_of r2, result_of r2)%list).
Proof.
  cbv zeta. unfold Databricks.sync_namespaces. intros Hbefore Hskip.
  rewrite for__app.
  destruct (for_ P sync_namespace before s) as [[tr1 s1] r1].
  unfold result_of in Hbefore. simpl in Hbefore. subst r1.
  change (state_of (tr1, s1, Returned tt)) with s1.
  change (trace_of (tr1, s1, Returned tt)) with tr1.
  rewrite for__cons.
  split.
  - intros Hsql.
    rewrite (sync_namespace_schema_fails N s1 w2 e Hskip Hsql).
    unfold trace_of, state_of, result_of. simpl. reflexivity.
  - intros Hsql Hlist.
    rewrite (sync_namespace_listing_fails N s1 w2 e Hskip Hsql Hlist).
    unfold trace_of, state_of, result_of. simpl. rewrite <- app_assoc. reflexivity.
Qed.

(** *** What a computation may emit *)

Local Abbreviation emits := (Databricks.emits P).

Lemma emits_ret {A : Type} (Q : event -> Prop) (a : A) : emits Q (ret P a).
Proof. intros s. constructor. Qed.

Lemma emits_raise {A : Type} (Q : event -> Prop) (e : exn) : emits Q (@raise P A e).
Proof. intros s. constructor. Qed.

Lemma emits_lift {A : Type} (Q : event -> Prop) (o : outcome A) : emits Q (lift P o).
Proof. intros s. constructor. Qed.

Lemma emits_get_reader (Q : event -> Prop) : emits Q (get_reader P).
Proof. intros s. constructor. Qed.

Lemma emits_set_reader (Q : event -> Prop) r : emits Q (set_reader P r).
Proof. intros s. constructor. Qed.

Lemma emits_log (Q : event -> Prop) (r : log_record) :
  Q (EvLog r) -> emits Q (log P r).
Proof. intros H s. repeat constructor. exact H. Qed.

Lemma emits_call {A : Type} (Q : event -> Prop) (ev : event)
  (f : World P -> World P * outcome A) :
  Q ev -> emits Q (call P ev f).
Proof.
  intros H s. unfold call, trace_of. destruct (f (world P s)) as [w1 r]. simpl.
  repeat constructor. exact H.
Qed.

Lemma emits_bind {A B : Type} (Q : event -> Prop) (m : M A) (k : A -> M B) :
  emits Q m -> (forall a, emits Q (k a)) -> emits Q (bind P m k).
Proof.
  intros Hm Hk s. unfold bind, trace_of. specialize (Hm s). unfold trace_of in Hm.
  destruct (m s) as [[tr s1] [a|e]]; simpl in *; [|exact Hm].
  specialize (Hk a s1). unfold trace_of in Hk.
  destruct (k a s1) as [[tr2 s2] r]. simpl in *. apply Forall_app. auto.
Qed.

Lemma emits_try_except {A : Type} (Q : event -> Prop) (body : M A)
  (handler : exn -> M A) :
  emits Q body -> (forall e, emits Q (handler e)) -> emits Q (try_except P body handler).
Proof.
  intros Hm Hk s. unfold try_except, trace_of. specialize (Hm s).
  unfold trace_of in Hm.
  destruct (body s) as [[tr s1] [a|e]]; simpl in *; [exact Hm|].
  specialize (Hk e s1). unfold trace_of in Hk.
  destruct (handler e s1) as [[tr2 s2] r]. simpl in *. apply Forall_app. auto.
Qed.

Lemma emits_for_ {A : Type} (Q : event -> Prop) (body : A -> M unit) (l : list A) :
  (forall a, emits Q (body a)) -> emits Q (for_ P body l).
Proof.
  intros H. induction l as [|a l IH]; simpl.
  - apply emits_ret.
  - apply emits_bind; auto.
Qed.

Lemma emits_for_each {A B : Type} (Q : event -> Prop) (f : A -> M B) (l : list A) :
  (forall a, emits Q (f a)) -> emits Q (for_each P f l).
Proof.
  intros H. induction l as [|a l IH]; simpl.
  - apply emits_ret.
  - apply emits_bind; auto. intros b. apply emits_bind; auto.
    intros bs. apply emits_ret.
Qed.

Lemma emits_weaken {A : Type} (Q Q' : event -> Prop) (m : M A) :
  (forall ev, Q ev -> Q' ev) -> emits Q m -> emits Q' m.
Proof. intros H Hm s. eapply Forall_impl; [exact H|apply Hm]. Qed.

Ltac emits_step :=
  first
    [ apply emits_ret | apply emits_raise | apply emits_lift | apply emits_get_reader
    | apply emits_set_reader | apply emits_log; exact I | apply emits_call; exact I
    | apply emits_call; reflexivity
    | apply emits_bind; [|intros ?] | apply emits_try_except; [|intros ?]
    | apply emits_for_; intros ? | apply emits_for_each; intros ?
    | match goal with
      | |- Databricks.emits _ _ (match ?x with _ => _ end) => destruct x
      | |- Databricks.emits _ _ (if ?x then _ else _) => destruct x
      end ].

(** Connecting to the catalog and listing tables send nothing to Spark. *)
Lemma try_candidate_emits (R : statement -> Prop) (candidate : string) :
  emits (spark_only R) (try_candidate candidate).
Proof.
  unfold Databricks.try_candidate, do_load_catalog. repeat emits_step.
Qed.

Lemma detect_catalog_emits (R : statement -> Prop) :
  emits (spark_only R) detect_catalog.
Proof.
  unfold Databricks.detect_catalog, Databricks.detect_loop.
  apply emits_bind; [emits_step|intros _].
  apply emits_bind; [apply try_candidate_emits|intros [found|]]; [emits_step|].
  apply emits_bind; [apply try_candidate_emits|intros [found|]]; emits_step.
Qed.

Lemma connect_to_catalog_emits (R : statement -> Prop) :
  emits (spark_only R) connect_to_catalog.
Proof.
  unfold Databricks.connect_to_catalog, do_load_catalog.
  apply emits_bind; [emits_step|intros self].
  destruct (catalog self); [emits_step|].
  apply emits_bind; [apply detect_catalog_emits|intros found].
  repeat emits_step.
Qed.

Lemma list_tables_emits (R : statement -> Prop) (namespace : string) :
  emits (spark_only R) (list_tables namespace).
Proof.
  unfold Databricks.list_tables, self_catalog.
  apply emits_bind; [apply connect_to_catalog_emits|intros _].
  repeat emits_step.
Qed.

(** Every statement of the turn of a namespace is derived for it. *)
Lemma sync_table_emits (namespace : string) (table_identifier : Identifier) :
  emits (spark_only (fun st => statement_namespace st = namespace))
    (sync_table namespace table_identifier).
Proof.
  unfold Databricks.sync_table, self_catalog, do_spark_sql. repeat emits_step.
Qed.

Lemma sync_namespace_emits (namespace : string) :
  emits (spark_only (fun st => statement_namespace st = namespace))
    (sync_namespace namespace).
Proof.
  unfold Databricks.sync_namespace, do_spark_sql.
  destruct (String.eqb namespace "atlan-history" && negb HISTORY_NAMESPACE_SYNC);
    [emits_step|].
  apply emits_bind; [emits_step|intros _].
  apply emits_bind; [repeat emits_step|intros created].
  destruct created; simpl; [|emits_step].
  apply emits_bind.
  - apply emits_try_except; [|intros e; repeat emits_step].
    apply emits_bind; [apply list_tables_emits|intros l; emits_step].
  - intros [l|]; [|emits_step].
    apply emits_for_. intros t. apply sync_table_emits.
Qed.

Lemma statements_of_spark_only (R : statement -> Prop) (tr : list event) :
  Forall (spark_only R) tr -> Forall R (statements_of tr).
Proof.
  unfold statements_of. induction 1 as [|ev tr Hev _ IH]; simpl.
  - constructor.
  - apply Forall_app. split; [|exact IH].
    destruct ev; simpl in *; auto.
Qed.

Lemma external_calls_app (a b : list event) :
  external_calls (a ++ b) = (external_calls a ++ external_calls b)%list.
Proof. apply filter_app. Qed.

(** *** The history namespace *)

Lemma history_sync_off_by_default :
  environ "HISTORY_NAMESPACE_SYNC" = None -> HISTORY_NAMESPACE_SYNC = false.
Proof.
  intros H. unfold Databricks.HISTORY_NAMESPACE_SYNC, getenv. rewrite H. reflexivity.
Qed.

Lemma sync_namespace_not_history (namespace : string) :
  HISTORY_NAMESPACE_SYNC = false ->
  emits (spark_only (fun st => statement_namespace st <> "atlan-history"))
    (sync_namespace namespace).
Proof.
  intros Hflag. destruct (String.eqb_spec namespace "atlan-history") as [->|Hne].
  - intros s. rewrite (sync_namespace_skip s Hflag). repeat constructor.
  - eapply emits_weaken; [|apply sync_namespace_emits].
    intros [] H; simpl in *; auto. congruence.
Qed.

Lemma sync_namespaces_filtered (namespaces : list string) :
  HISTORY_NAMESPACE_SYNC = false ->
  forall s,
    external_calls (trace_of (sync_namespaces namespaces s))
    = external_calls
        (trace_of
           (sync_namespaces
              (filter (fun n => negb (String.eqb n "atlan-history")) namespaces) s))
    /\ state_of (sync_namespaces namespaces s)
       = state_of
           (sync_namespaces
              (filter (fun n => negb (String.eqb n "atlan-history")) namespaces) s)
    /\ result_of (sync_namespaces namespaces s)
       = result_of
           (sync_namespaces
              (filter (fun n => negb (String.eqb n "atlan-history")) namespaces) s).
Proof.
  intros Hflag. unfold Databricks.sync_namespaces.
  induction namespaces as [|n rest IH]; intros s.
  - simpl. auto.
  - rewrite for__cons. cbn [filter].
    destruct (String.eqb_spec n "atlan-history") as [->|Hne]; cbn [negb].
    + rewrite (sync_namespace_skip s Hflag).
      unfold trace_of at 1, state_of at 1, result_of at 1. cbn [fst snd].
      rewrite external_calls_app. simpl. apply IH.
    + rewrite for__cons.
      destruct (sync_namespace n s) as [[tr1 s1] [[]|e]].
      * unfold trace_of at 1 3, state_of at 1 3, result_of at 1 3. cbn [fst snd].
        rewrite !external_calls_app.
        destruct (IH s1) as (H1 & H2 & H3). rewrite H1, H2, H3. auto.
      * auto.
Qed.

(** C6: with history sync disabled, no statement sent to Spark during the
    loop over the namespaces is derived for the namespace atlan-history
    (neither CREATE SCHEMA nor CREATE TABLE), and the calls made to the
    catalog and to Spark, the final state and the result are those of the
    loop over the same list without atlan-history. *)
Theorem history_namespace_not_synced (namespaces : list string) (s : state) :
  HISTORY_NAMESPACE_SYNC = false ->
  let r := sync_namespaces namespaces s in
  let r' :=
    sync_namespaces (filter (fun n => negb (String.eqb n "atlan-history")) namespaces) s
  in
  Forall (fun st => statement_namespace st <> "atlan-history")
    (statements_of (trace_of r))
  /\ external_calls (trace_of r) = external_calls (trace_of r')
  /\ state_of r = state_of r'
  /\ result_of r = result_of r'.
Proof.
  intros Hflag. cbv zeta. split.
  - apply statements_of_spark_only. unfold Databricks.sync_namespaces.
    apply emits_for_. intros n. apply sync_namespace_not_history. exact Hflag.
  - apply sync_namespaces_filtered. exact Hflag.
Qed.

(** The same for a whole run of [main]: listing the namespaces sends
    nothing to Spark. *)
Lemma main_sends_nothing_for_history (s : state) :
  HISTORY_NAMESPACE_SYNC = false ->
  Forall (fun st => statement_namespace st <> "atlan-history")
    (statements_of (trace_of (Databricks.main P environ s))).
Proof.
  intros Hflag. apply statements_of_spark_only. revert s.
  change (emits (spark_only (fun st => statement_namespace st <> "atlan-history"))
            (Databricks.main P environ)).
  unfold Databricks.main, Databricks.list_namespaces, self_catalog,
    Databricks.sync_namespaces.
  apply emits_bind; [emits_step|intros _].
  apply emits_bind; [emits_step|intros _].
  apply emits_bind; [emits_step|intros _].
  apply emits_bind.
  - apply emits_bind; [apply connect_to_catalog_emits|intros _].
    repeat emits_step.
  - intros namespaces. apply emits_bind; [|intros _; emits_step].
    apply emits_for_. intros n. apply sync_namespace_not_history. exact Hflag.
Qed.

(** *** Namespaces *)

Lemma for_each_lift_state {A B : Type} (f : A -> outcome B) (l : list A) (s : state) :
  for_each P (fun a => lift P (f a)) l s = ([], s, collect f l).
Proof.
  induction l as [|a l IH]; simpl.
  - reflexivity.
  - unfold bind, lift at 1. destruct (f a) as [b|e]; [|reflexivity].
    rewrite IH. destruct (collect f l); reflexivity.
Qed.

Lemma collect_first_element (nss : list namespace_ref) :
  Forall (fun ns => ns <> NsTuple []) nss ->
  exists names,
    collect first_element nss = Returned names /\ Forall2 normalized nss names.
Proof.
  induction 1 as [|ns nss Hns _ (names & E & IH)]; simpl.
  - exists []. split; [reflexivity|constructor].
  - destruct ns as [[|x t]|x]; simpl.
    + congruence.
    + rewrite E. exists (x :: names). split; [reflexivity|].
      constructor; [reflexivity|exact IH].
    + rewrite E. exists (x :: names). split; [reflexivity|].
      constructor; [reflexivity|exact IH].
Qed.

(** A connection that succeeds leaves a catalog in the reader. *)
Lemma connect_to_catalog_connected (s : state) :
  result_of (connect_to_catalog s) = Returned tt ->
  exists c, catalog (reader P (state_of (connect_to_catalog s))) = Some c.
Proof.
  remember (connect_to_catalog s) as r eqn:Hr.
  unfold Databricks.connect_to_catalog in Hr. unfold bind at 1, get_reader in Hr.
  destruct (catalog (reader P s)) as [c|] eqn:Hc.
  - subst r. intros _. exists c. exact Hc.
  - unfold bind at 1 in Hr.
    destruct (detect_catalog_run s) as (tr & E & _). cbv zeta in E. rewrite E in Hr.
    destruct (if snd (probe (world P s) "atlan-wh")
              then Returned ("atlan-wh", "atlan-wh")
              else if snd (probe (fst (probe (world P s) "atlan-wh")) "context_store")
                   then Returned ("context_store", "context_store")
                   else Raised (mk_exn "RuntimeError" "No valid Polaris catalog found"))
      as [found|e]; [|subst r; discriminate].
    unfold bind, set_reader, do_load_catalog, call, log in Hr. cbn [world reader] in Hr.
    destruct (load_catalog P _ (fst found) _) as [w1 [c|e]];
      subst r; [|discriminate].
    intros _. exists c. reflexivity.
Qed.

(** A tuple without elements has no first element: the loop raises. *)
Lemma first_element_empty_tuple :
  first_element (NsTuple []) = Raised (mk_exn "IndexError" "tuple index out of range").
Proof. reflexivity. Qed.

(** C9: when the reader is connected to the catalog [c] and the catalog
    lists the namespaces [nss], none of them an empty tuple,
    [list_namespaces] returns as many names in the same order, each the
    first element of the tuple at its place or the flat string at its
    place. *)
Theorem list_namespaces_normalizes (s : state) (c : Catalog P) (w2 : World P)
  (nss : list namespace_ref) :
  let r0 := connect_to_catalog s in
  result_of r0 = Returned tt ->
  catalog (reader P (state_of r0)) = Some c ->
  catalog_list_namespaces P (world P (state_of r0)) c = (w2, Returned nss) ->
  Forall (fun ns => ns <> NsTuple []) nss ->
  exists names,
    result_of (list_namespaces s) = Returned names
    /\ Forall2 normalized nss names
    /\ List.length names = List.length nss.
Proof.
  cbv zeta. intros Hconn Hcat Hlist Hnss.
  unfold Databricks.list_namespaces. unfold bind at 1.
  destruct (connect_to_catalog s) as [[tr0 s0] r0].
  unfold result_of, state_of in Hconn, Hcat, Hlist. simpl in Hconn, Hcat, Hlist.
  subst r0.
  unfold bind at 1, self_catalog, bind at 1, get_reader. rewrite Hcat.
  unfold ret at 1. unfold bind at 1, call. rewrite Hlist.
  unfold bind at 1, log. rewrite for_each_lift_state.
  destruct (collect_first_element nss Hnss) as (names & E & Hnorm).
  rewrite E. exists names. unfold result_of. simpl.
  split; [reflexivity|]. split; [exact Hnorm|].
  symmetry. eapply Forall2_length. exact Hnorm.
Qed.

(** *** More about the sync *)

Lemma last_element_nonempty (t : Identifier) :
  t <> [] -> exists x, last_element t = Returned x.
Proof.
  intros Ht. unfold last_element. destruct (rev t) as [|x r] eqn:E.
  - exfalso. apply Ht. apply (f_equal (@rev string)) in E.
    rewrite rev_involutive in E. exact E.
  - eauto.
Qed.

Lemma statements_of_app (a b : list event) :
  statements_of (a ++ b) = (statements_of a ++ statements_of b)%list.
Proof. apply flat_map_app. Qed.

Lemma statements_of_none (tr : list event) :
  Forall (spark_only (fun _ => False)) tr -> statements_of tr = [].
Proof.
  intros H. apply statements_of_spark_only in H.
  destruct (statements_of tr) as [|st l]; [reflexivity|].
  apply Forall_inv in H. destruct H.
Qed.

Lemma sync_table_returns (namespace : string) (table_identifier : Identifier)
  (s : state) :
  table_identifier <> [] ->
  result_of (sync_table namespace table_identifier s) = Returned tt.
Proof.
  intros Hne. destruct (last_element_nonempty table_identifier Hne) as [x Hx].
  unfold Databricks.sync_table, try_except.
  destruct (bind P (self_catalog P) _ s) as [[tr s1] [[]|e]]; [reflexivity|].
  unfold bind, lift, log. rewrite Hx. reflexivity.
Qed.

(** X13: A failure while syncing one table never leaves [sync_table] as long as
    the table identifier has an element: the function returns.  For an
    identifier without elements the handler itself fails on
    [table_identifier[-1]]: IndexError is raised, and nothing was sent to
    Spark for that table. *)
Theorem sync_table_isolation (namespace : string) (table_identifier : Identifier)
  (s : state) :
  (table_identifier <> [] ->
   result_of (sync_table namespace table_identifier s) = Returned tt)
  /\ (table_identifier = [] ->
      result_of (sync_table namespace table_identifier s)
      = Raised (mk_exn "IndexError" "tuple index out of range")
      /\ statements_of (trace_of (sync_table namespace table_identifier s)) = []).
Proof.
  split.
  - apply sync_table_returns.
  - intros ->.
    cbv [Databricks.sync_table try_except bind self_catalog get_reader call lift ret
           raise].
    destruct (catalog (reader P s)) as [c|]; [|split; reflexivity].
    destruct (catalog_load_table P (world P s) c []) as [w1 [table|e]];
      [|split; reflexivity].
    destruct (get_metadata_path P table) as [path|e]; split; reflexivity.
Qed.

Lemma sync_table_creates (namespace : string) (table_identifier : Identifier) :
  emits (spark_only (create_table_for namespace)) (sync_table namespace table_identifier).
Proof.
  unfold Databricks.sync_table, self_catalog, do_spark_sql. repeat emits_step.
  apply emits_call. simpl. unfold create_table_for. eauto.
Qed.

Lemma listing_sends_nothing (namespace : string) :
  emits (spark_only (fun _ => False))
    (try_except P (bind P (list_tables namespace) (fun l => ret P (Some l)))
       (fun e => bind P (log P (ErrorListing namespace e)) (fun _ => ret P None))).
Proof.
  apply emits_try_except; [|intros e; repeat emits_step].
  apply emits_bind; [apply list_tables_emits|intros l; emits_step].
Qed.

(** X12: In the turn of a namespace that is not skipped, the first statement
    sent to Spark is its CREATE SCHEMA and every other one is a CREATE TABLE
    of that namespace, so no table is created before its schema; when the
    CREATE SCHEMA raises, it is the only statement.  The turn of
    atlan-history with the flag off only writes a log record; with the flag
    on it is a turn like any other. *)
Theorem sync_namespace_statements (namespace : string) (s : state) :
  (String.eqb namespace "atlan-history" && negb HISTORY_NAMESPACE_SYNC = true ->
   trace_of (sync_namespace namespace s) = [EvLog InfoSkippingHistory])
  /\ (String.eqb namespace "atlan-history" && negb HISTORY_NAMESPACE_SYNC = false ->
      exists l,
        statements_of (trace_of (sync_namespace namespace s))
        = CreateSchema namespace :: l
        /\ Forall (create_table_for namespace) l
        /\ (forall w e,
              spark_sql P (world P s) (statement_sql (CreateSchema namespace))
              = (w, Raised e) ->
              l = [])).
Proof.
  split; intros Hskip; unfold Databricks.sync_namespace; rewrite Hskip.
  - reflexivity.
  - unfold bind at 1, log at 1. unfold bind at 1.
    unfold try_except at 1, bind at 1, do_spark_sql at 1, call at 1.
    destruct (spark_sql P (world P s) (statement_sql (CreateSchema namespace)))
      as [w [[]|e]].
    + unfold ret at 1. cbn [negb]. unfold bind at 1.
      pose proof (listing_sends_nothing namespace
                    (mk_state P w (reader P (mk_state P (world P s) (reader P s)))))
        as Hlist.
      unfold trace_of in Hlist.
      destruct (try_except P _ _ _) as [[tr2 s2] [[l|]|e2]]; cbn [fst snd] in Hlist;
        apply statements_of_none in Hlist.
      * pose proof (emits_for_ (spark_only (create_table_for namespace))
                      (sync_table namespace) l
                      (fun t => sync_table_creates namespace t) s2) as Hfor.
        apply statements_of_spark_only in Hfor. unfold trace_of in Hfor |- *.
        destruct (for_ P (sync_table namespace) l s2) as [[tr3 s3] r3].
        cbn [fst snd] in *.
        exists (statements_of tr3). split; [|split].
        -- change (statements_of
                     ([EvLog (InfoProcessing namespace)]
                      ++ [EvSparkSql (CreateSchema namespace)]
                      ++ tr2 ++ tr3)
                   = CreateSchema namespace :: statements_of tr3).
           rewrite !statements_of_app, Hlist. reflexivity.
        -- exact Hfor.
        -- intros w' e E. discriminate E.
      * exists []. unfold ret, trace_of. cbn [fst snd]. split; [|split].
        -- change (statements_of
                     ([EvLog (InfoProcessing namespace)]
                      ++ [EvSparkSql (CreateSchema namespace)]
                      ++ tr2 ++ [])
                   = [CreateSchema namespace]).
           rewrite !statements_of_app, Hlist. reflexivity.
        -- constructor.
        -- intros w' e E. discriminate E.
      * exists []. unfold trace_of. cbn [fst snd]. split; [|split].
        -- change (statements_of
                     ([EvLog (InfoProcessing namespace)]
                      ++ [EvSparkSql (CreateSchema namespace)]
                      ++ tr2)
                   = [CreateSchema namespace]).
           rewrite !statements_of_app, Hlist. reflexivity.
        -- constructor.
        -- intros w' e E. discriminate E.
    + exists []. split; [reflexivity|]. split; [constructor|reflexivity].
Qed.

(** *** Metadata paths *)

Lemma emits_bind_lift {A B : Type} (Q : event -> Prop) (o : outcome A) (k : A -> M B) :
  (forall a, o = Returned a -> emits Q (k a)) -> emits Q (bind P (lift P o) k).
Proof.
  intros H s. unfold bind, lift, trace_of. destruct o as [a|e]; [|constructor].
  specialize (H a eq_refl s). unfold trace_of in H.
  destruct (k a s) as [[tr s'] r]. exact H.
Qed.

Lemma get_metadata_path_nonempty (table : Table) (path : string) :
  get_metadata_path P table = Returned path -> path <> "".
Proof.
  unfold get_metadata_path.
  destruct (metadata_location table) as [[|ch rest]|]; intros H;
    try discriminate H.
  injection H as <-. discriminate.
Qed.

Lemma sync_table_paths (namespace : string) (table_identifier : Identifier) :
  emits (spark_only path_not_empty) (sync_table namespace table_identifier).
Proof.
  unfold Databricks.sync_table.
  apply emits_try_except; [|intros e; repeat emits_step].
  apply emits_bind; [unfold self_catalog; repeat emits_step|intros c].
  apply emits_bind; [emits_step|intros table].
  apply emits_bind_lift. intros path Hpath.
  apply emits_bind; [emits_step|intros table_name].
  apply emits_bind; [emits_step|intros _].
  apply emits_bind; [|intros _; emits_step].
  unfold do_spark_sql. apply emits_call. simpl.
  eapply get_metadata_path_nonempty. exact Hpath.
Qed.

(** What holds of every statement of every table turn and of every CREATE
    SCHEMA holds of every statement of a whole run. *)
Lemma main_emits (R : statement -> Prop) :
  (forall namespace, R (CreateSchema namespace)) ->
  (forall namespace t, emits (spark_only R) (sync_table namespace t)) ->
  emits (spark_only R) (Databricks.main P environ).
Proof.
  intros Hschema Htable.
  unfold Databricks.main, Databricks.list_namespaces, self_catalog,
    Databricks.sync_namespaces.
  apply emits_bind; [emits_step|intros _].
  apply emits_bind; [emits_step|intros _].
  apply emits_bind; [emits_step|intros _].
  apply emits_bind.
  - apply emits_bind; [apply connect_to_catalog_emits|intros _].
    repeat emits_step.
  - intros namespaces. apply emits_bind; [|intros _; emits_step].
    apply emits_for_. intros n.
    unfold Databricks.sync_namespace, do_spark_sql.
    destruct (String.eqb n "atlan-history" && negb HISTORY_NAMESPACE_SYNC);
      [emits_step|].
    apply emits_bind; [emits_step|intros _].
    apply emits_bind.
    + apply emits_try_except; [|intros e; repeat emits_step].
      apply emits_bind; [|intros _; emits_step].
      apply emits_call. apply Hschema.
    + intros created. destruct created; simpl; [|emits_step].
      apply emits_bind.
      * apply emits_try_except; [|intros e; repeat emits_step].
        apply emits_bind; [apply list_tables_emits|intros l; emits_step].
      * intros [l|]; [|emits_step]. apply emits_for_. intros t. apply Htable.
Qed.

(** X14: No CREATE TABLE with an empty METADATA_PATH is ever sent: in every run
    of [main], whatever the catalog and Spark do, the path of each CREATE
    TABLE statement is a string that is not empty. *)
Theorem metadata_path_never_empty (s : state) :
  Forall path_not_empty (statements_of (trace_of (Databricks.main P environ s))).
Proof.
  apply statements_of_spark_only. revert s.
  change (emits (spark_only path_not_empty) (Databricks.main P environ)).
  apply main_emits.
  - intros namespace. exact I.
  - apply sync_table_paths.
Qed.

(** X15: A table whose metadata location is missing or empty is skipped: the
    table is loaded, the ValueError is logged with the name of the table,
    nothing is sent to Spark and the function returns. *)
Theorem missing_metadata_skips_table (namespace : string)
  (table_identifier : Identifier) (s : state) (c : Catalog P) (w1 : World P)
  (table : Table) :
  catalog (reader P s) = Some c ->
  catalog_load_table P (world P s) c table_identifier = (w1, Returned table) ->
  metadata_location table = None \/ metadata_location table = Some "" ->
  table_identifier <> [] ->
  exists table_name,
    last_element table_identifier = Returned table_name
    /\ sync_table namespace table_identifier s
       = ([EvLoadTable table_identifier;
           EvLog (ErrorTable namespace table_name
                    (mk_exn "ValueError"
                       ("No metadata location for "
                        ++ str_identifier P (identifier table))))],
          mk_state P w1 (reader P s), Returned tt).
Proof.
  intros Hc Hload Hmeta Hne.
  destruct (last_element_nonempty table_identifier Hne) as [x Hx].
  exists x. split; [exact Hx|].
  cbv [Databricks.sync_table try_except bind self_catalog get_reader call lift ret
         raise log].
  rewrite Hc, Hload. unfold get_metadata_path.
  destruct Hmeta as [-> | ->]; rewrite Hx; reflexivity.
Qed.

(** *** Runs that complete *)

(** [main] step by step. *)
Lemma main_run (s : state) :
  Databricks.main P environ s
  = match spark_session P (world P s) with
    | (w1, Raised e) =>
        ([EvLog InfoStarting; EvSparkSession], mk_state P w1 (reader P s), Raised e)
    | (w1, Returned _) =>
        match list_namespaces (mk_state P w1 (mk_reader None None None)) with
        | (tr, s2, Raised e) =>
            (EvLog InfoStarting :: EvSparkSession :: tr, s2, Raised e)
        | (tr, s2, Returned names) =>
            match sync_namespaces names s2 with
            | (tr3, s3, Raised e) =>
                ((EvLog InfoStarting :: EvSparkSession :: tr ++ tr3)%list, s3, Raised e)
            | (tr3, s3, Returned _) =>
                (((EvLog InfoStarting :: EvSparkSession :: tr ++ tr3)
                  ++ [EvLog InfoCompleted])%list, s3, Returned tt)
            end
        end
    end.
Proof.
  unfold Databricks.main. unfold bind at 1, log at 1. unfold bind at 1, call at 1.
  destruct (spark_session P (world P s)) as [w1 [[]|e]]; [|reflexivity].
  unfold bind at 1, set_reader at 1. cbn [world reader]. unfold bind at 1.
  destruct (list_namespaces (mk_state P w1 (mk_reader None None None)))
    as [[tr s2] [names|e]]; [|reflexivity].
  unfold bind at 1.
  destruct (sync_namespaces names s2) as [[tr3 s3] [[]|e]]; [|reflexivity].
  unfold log. cbn [app]. rewrite <- app_assoc. reflexivity.
Qed.

Section NonEmptyIdentifiers.

(** The catalog lists no table identifier without elements. *)
Hypothesis identifiers_not_empty :
  forall w c namespace w' l,
    catalog_list_tables P w c namespace = (w', Returned l) ->
    Forall (fun t : Identifier => t <> []) l.

Lemma list_tables_not_empty (namespace : string) (s : state) (l : list Identifier) :
  result_of (list_tables namespace s) = Returned l ->
  Forall (fun t : Identifier => t <> []) l.
Proof.
  unfold Databricks.list_tables. unfold bind at 1.
  destruct (connect_to_catalog s) as [[tr0 s0] [[]|e]]; [|discriminate].
  unfold bind at 1, self_catalog, bind at 1, get_reader.
  destruct (catalog (reader P s0)) as [c|]; [|discriminate].
  unfold ret, call.
  destruct (catalog_list_tables P (world P s0) c namespace) as [w' [l'|e]] eqn:E;
    [|discriminate].
  unfold result_of. simpl. intros H. injection H as <-.
  eapply identifiers_not_empty. exact E.
Qed.

Lemma for_sync_table_returns (namespace : string) (l : list Identifier) :
  Forall (fun t : Identifier => t <> []) l ->
  forall s, result_of (for_ P (sync_table namespace) l s) = Returned tt.
Proof.
  induction 1 as [|t l Ht _ IH]; intros s.
  - reflexivity.
  - rewrite for__cons. pose proof (sync_table_returns namespace t s Ht) as Hr.
    destruct (sync_table namespace t s) as [[tr s1] r].
    unfold result_of in Hr. simpl in Hr. subst r. apply IH.
Qed.

Lemma sync_namespace_returns (namespace : string) (s : state) :
  result_of (sync_namespace namespace s) = Returned tt.
Proof.
  unfold Databricks.sync_namespace.
  destruct (String.eqb namespace "atlan-history" && negb HISTORY_NAMESPACE_SYNC);
    [reflexivity|].
  unfold bind at 1, log at 1. unfold bind at 1.
  unfold try_except at 1, bind at 1, do_spark_sql at 1, call at 1.
  destruct (spark_sql P (world P s) (statement_sql (CreateSchema namespace)))
    as [w [[]|e]]; [|reflexivity].
  unfold ret at 1. cbn [negb]. unfold bind at 1, try_except at 1, bind at 1.
  pose proof (list_tables_not_empty namespace
                (mk_state P w (reader P (mk_state P (world P s) (reader P s)))))
    as Hl.
  destruct (list_tables namespace _) as [[tr2 s2] [l|e2]].
  - specialize (Hl l eq_refl). unfold ret at 1.
    pose proof (for_sync_table_returns namespace l Hl s2) as Hfor.
    destruct (for_ P (sync_table namespace) l s2) as [[tr3 s3] r3].
    unfold result_of in Hfor |- *. simpl in Hfor |- *. exact Hfor.
  - reflexivity.
Qed.

Lemma sync_namespaces_return (namespaces : list string) :
  forall s, result_of (sync_namespaces namespaces s) = Returned tt.
Proof.
  unfold Databricks.sync_namespaces.
  induction namespaces as [|n rest IH]; intros s.
  - reflexivity.
  - rewrite for__cons. pose proof (sync_namespace_returns n s) as Hr.
    destruct (sync_namespace n s) as [[tr s1] r].
    unfold result_of in Hr. simpl in Hr. subst r. apply IH.
Qed.

(** X16: When the catalog lists no table identifier without elements, no failure
    of a namespace or of a table stops the sync: the loop over the
    namespaces always returns, and [main] returns exactly when the Spark
    session is obtained and [list_namespaces] returns; its last act is then
    the log record of completion. *)
Theorem sync_completes :
  (forall namespaces s, result_of (sync_namespaces namespaces s) = Returned tt)
  /\ (forall s,
        result_of (Databricks.main P environ s) = Returned tt <->
        exists w1 names,
          spark_session P (world P s) = (w1, Returned tt)
          /\ result_of (list_namespaces (mk_state P w1 (mk_reader None None None)))
             = Returned names)
  /\ (forall s,
        result_of (Databricks.main P environ s) = Returned tt ->
        last (trace_of (Databricks.main P environ s)) (EvLog InfoStarting)
        = EvLog InfoCompleted).
Proof.
  split; [intros namespaces s; apply sync_namespaces_return|].
  assert (Hmain : forall s,
             (exists w1 names,
                 spark_session P (world P s) = (w1, Returned tt)
                 /\ result_of (list_namespaces (mk_state P w1 (mk_reader None None None)))
                    = Returned names)
             /\ result_of (Databricks.main P environ s) = Returned tt
             /\ last (trace_of (Databricks.main P environ s)) (EvLog InfoStarting)
                = EvLog InfoCompleted
             \/ (~ (exists w1 names,
                       spark_session P (world P s) = (w1, Returned tt)
                       /\ result_of
                            (list_namespaces (mk_state P w1 (mk_reader None None None)))
                          = Returned names))
                /\ result_of (Databricks.main P environ s) <> Returned tt).
  { intros s. rewrite main_run.
    destruct (spark_session P (world P s)) as [w1 [[]|e]] eqn:Hsp.
    - destruct (list_namespaces (mk_state P w1 (mk_reader None None None)))
        as [[tr s2] [names|e]] eqn:Hns.
      + left. split; [exists w1, names; split; [reflexivity|]; now rewrite Hns|].
        pose proof (sync_namespaces_return names s2) as Hsync.
        destruct (sync_namespaces names s2) as [[tr3 s3] r3].
        unfold result_of in Hsync. simpl in Hsync. subst r3.
        unfold result_of, trace_of. cbn [fst snd].
        split; [reflexivity|]. apply last_last.
      + right. split; [|discriminate].
        intros (w1' & names & E1 & E2). injection E1 as <-.
        rewrite Hns in E2. discriminate E2.
    - right. split; [|discriminate].
      intros (w1' & names & E1 & _). discriminate E1. }
  split; intros s; destruct (Hmain s) as [(H1 & H2 & H3)|(H1 & H2)].
  - split; auto.
  - split; [intros H; contradiction|intros H; contradiction].
  - auto.
  - intros H. contradiction.
Qed.

End NonEmptyIdentifiers.

(** *** Namespaces that cannot be normalized, catalogs that cannot be found *)

Lemma collect_first_element_raises (nss : list namespace_ref) :
  Exists (fun ns => ns = NsTuple []) nss ->
  collect first_element nss = Raised (mk_exn "IndexError" "tuple index out of range").
Proof.
  induction 1 as [ns nss ->|ns nss _ IH]; simpl.
  - reflexivity.
  - destruct ns as [[|x t]|x]; simpl; try reflexivity; now rewrite IH.
Qed.

(** X17: When one of the namespaces the catalog lists is a tuple without
    elements, [list_namespaces] raises IndexError instead of returning
    names. *)
Theorem list_namespaces_empty_tuple (s : state) (c : Catalog P) (w2 : World P)
  (nss : list namespace_ref) :
  let r0 := connect_to_catalog s in
  result_of r0 = Returned tt ->
  catalog (reader P (state_of r0)) = Some c ->
  catalog_list_namespaces P (world P (state_of r0)) c = (w2, Returned nss) ->
  Exists (fun ns => ns = NsTuple []) nss ->
  result_of (list_namespaces s)
  = Raised (mk_exn "IndexError" "tuple index out of range").
Proof.
  cbv zeta. intros Hconn Hcat Hlist Hnss.
  unfold Databricks.list_namespaces. unfold bind at 1.
  destruct (connect_to_catalog s) as [[tr0 s0] r0].
  unfold result_of, state_of in Hconn, Hcat, Hlist. simpl in Hconn, Hcat, Hlist.
  subst r0.
  unfold bind at 1, self_catalog, bind at 1, get_reader. rewrite Hcat.
  unfold ret at 1. unfold bind at 1, call. rewrite Hlist.
  unfold bind at 1, log. rewrite for_each_lift_state.
  rewrite (collect_first_element_raises nss Hnss). reflexivity.
Qed.

Lemma list_namespaces_undetected (s : state) :
  catalog (reader P s) = None ->
  snd (probe (world P s) "atlan-wh") = false ->
  snd (probe (fst (probe (world P s) "atlan-wh")) "context_store") = false ->
  exists tr s',
    list_namespaces s
    = (tr, s', Raised (mk_exn "RuntimeError" "No valid Polaris catalog found"))
    /\ statements_of tr = [].
Proof.
  intros Hc Hp1 Hp2.
  unfold Databricks.list_namespaces. unfold bind at 1.
  unfold Databricks.connect_to_catalog. unfold bind at 1, get_reader at 1.
  rewrite Hc. unfold bind at 1.
  pose proof (detect_catalog_emits (fun _ => False) s) as Hem.
  destruct (detect_catalog_run s) as (tr & E & _).
  cbv zeta in E. rewrite Hp1, Hp2 in E.
  rewrite E in Hem |- *. unfold trace_of in Hem. cbn [fst snd] in Hem.
  apply statements_of_none in Hem.
  eexists _, _. split; [reflexivity|]. exact Hem.
Qed.

(** X18: When the Spark session is obtained and neither candidate catalog
    qualifies, [main] ends with the RuntimeError of [detect_catalog] and has
    sent no statement to Spark. *)
Theorem no_catalog_aborts (s : state) (w1 : World P) :
  spark_session P (world P s) = (w1, Returned tt) ->
  snd (probe w1 "atlan-wh") = false ->
  snd (probe (fst (probe w1 "atlan-wh")) "context_store") = false ->
  result_of (Databricks.main P environ s)
  = Raised (mk_exn "RuntimeError" "No valid Polaris catalog found")
  /\ statements_of (trace_of (Databricks.main P environ s)) = [].
Proof.
  intros Hsp Hp1 Hp2. rewrite main_run, Hsp.
  destruct (list_namespaces_undetected (mk_state P w1 (mk_reader None None None))
              eq_refl Hp1 Hp2) as (tr & s' & E & Hst).
  rewrite E. unfold result_of, trace_of. cbn [fst snd]. split; [reflexivity|].
  change (statements_of ([EvLog InfoStarting; EvSparkSession] ++ tr) = []).
  rewrite statements_of_app, Hst. reflexivity.
Qed.

(** *** One connection per run *)

Local Abbreviation stays_connected := (Databricks.stays_connected P).
Local Abbreviation connected := (Databricks.connected P).

Lemma sc_ret {A : Type} (Q : event -> Prop) (a : A) : stays_connected Q (ret P a).
Proof. intros s Hs. split; [constructor|exact Hs]. Qed.

Lemma sc_raise {A : Type} (Q : event -> Prop) (e : exn) :
  stays_connected Q (@raise P A e).
Proof. intros s Hs. split; [constructor|exact Hs]. Qed.

Lemma sc_lift {A : Type} (Q : event -> Prop) (o : outcome A) :
  stays_connected Q (lift P o).
Proof. intros s Hs. split; [constructor|exact Hs]. Qed.

Lemma sc_get_reader (Q : event -> Prop) : stays_connected Q (get_reader P).
Proof. intros s Hs. split; [constructor|exact Hs]. Qed.

Lemma sc_log (Q : event -> Prop) (r : log_record) :
  Q (EvLog r) -> stays_connected Q (log P r).
Proof. intros H s Hs. split; [repeat constructor; exact H|exact Hs]. Qed.

Lemma sc_call {A : Type} (Q : event -> Prop) (ev : event)
  (f : World P -> World P * outcome A) :
  Q ev -> stays_connected Q (call P ev f).
Proof.
  intros H s Hs. unfold call, trace_of, state_of.
  destruct (f (world P s)) as [w1 r]. simpl.
  split; [repeat constructor; exact H|exact Hs].
Qed.

Lemma sc_bind {A B : Type} (Q : event -> Prop) (m : M A) (k : A -> M B) :
  stays_connected Q m -> (forall a, stays_connected Q (k a)) ->
  stays_connected Q (bind P m k).
Proof.
  intros Hm Hk s Hs. unfold bind, trace_of, state_of.
  destruct (Hm s Hs) as [Ht Hc]. unfold trace_of, state_of in Ht, Hc.
  destruct (m s) as [[tr s1] [a|e]]; simpl in *; [|auto].
  destruct (Hk a s1 Hc) as [Ht2 Hc2]. unfold trace_of, state_of in Ht2, Hc2.
  destruct (k a s1) as [[tr2 s2] r]. simpl in *. split; [|exact Hc2].
  apply Forall_app. auto.
Qed.

Lemma sc_try_except {A : Type} (Q : event -> Prop) (body : M A)
  (handler : exn -> M A) :
  stays_connected Q body -> (forall e, stays_connected Q (handler e)) ->
  stays_connected Q (try_except P body handler).
Proof.
  intros Hm Hk s Hs. unfold try_except, trace_of, state_of.
  destruct (Hm s Hs) as [Ht Hc]. unfold trace_of, state_of in Ht, Hc.
  destruct (body s) as [[tr s1] [a|e]]; simpl in *; [auto|].
  destruct (Hk e s1 Hc) as [Ht2 Hc2]. unfold trace_of, state_of in Ht2, Hc2.
  destruct (handler e s1) as [[tr2 s2] r]. simpl in *. split; [|exact Hc2].
  apply Forall_app. auto.
Qed.

Lemma sc_for_ {A : Type} (Q : event -> Prop) (body : A -> M unit) (l : list A) :
  (forall a, stays_connected Q (body a)) -> stays_connected Q (for_ P body l).
Proof.
  intros H. induction l as [|a l IH]; simpl.
  - apply sc_ret.
  - apply sc_bind; auto.
Qed.

(** With a catalog in the reader, [connect_to_catalog] does nothing. *)
Lemma sc_connect_to_catalog (Q : event -> Prop) : stays_connected Q connect_to_catalog.
Proof.
  intros s [c Hc]. unfold Databricks.connect_to_catalog, bind, get_reader.
  rewrite Hc. unfold ret, trace_of, state_of. simpl.
  split; [constructor|exists c; exact Hc].
Qed.

Ltac sc_step :=
  first
    [ apply sc_ret | apply sc_raise | apply sc_lift | apply sc_get_reader
    | apply sc_connect_to_catalog
    | apply sc_log; exact I | apply sc_call; exact I
    | apply sc_bind; [|intros ?] | apply sc_try_except; [|intros ?]
    | apply sc_for_; intros ?
    | match goal with
      | |- Databricks.stays_connected _ _ (match ?x with _ => _ end) => destruct x
      | |- Databricks.stays_connected _ _ (if ?x then _ else _) => destruct x
      end ].

Lemma sync_namespace_keeps_catalog (namespace : string) :
  stays_connected not_load_catalog (sync_namespace namespace).
Proof.
  unfold Databricks.sync_namespace, Databricks.list_tables, Databricks.sync_table,
    self_catalog, do_spark_sql.
  repeat sc_step.
Qed.

Lemma catalogs_tried_none (tr : list event) :
  Forall not_load_catalog tr -> catalogs_tried tr = [].
Proof.
  unfold catalogs_tried. induction 1 as [|ev tr Hev _ IH]; simpl; [reflexivity|].
  rewrite IH. destruct ev; simpl in *; try reflexivity. contradiction.
Qed.

Lemma catalogs_tried_app (a b : list event) :
  catalogs_tried (a ++ b) = (catalogs_tried a ++ catalogs_tried b)%list.
Proof. apply flat_map_app. Qed.

(** Connecting loads a catalog at most three times: at most one probe per
    candidate and one load of the catalog found. *)
Lemma connect_to_catalog_loads (s : state) :
  exists tr s' r,
    connect_to_catalog s = (tr, s', r)
    /\ (List.length (catalogs_tried tr) <= 3)%nat
    /\ (r = Returned tt -> connected s').
Proof.
  unfold Databricks.connect_to_catalog. unfold bind at 1, get_reader.
  destruct (catalog (reader P s)) as [c|] eqn:Hc.
  - eexists _, _, _. split; [reflexivity|]. split; [simpl; lia|].
    intros _. exists c. exact Hc.
  - unfold bind at 1.
    destruct (detect_catalog_run s) as (tr & E & T). cbv zeta in E, T. rewrite E.
    assert (Htr : (List.length (catalogs_tried tr) <= 2)%nat).
    { rewrite T. destruct (snd (probe (world P s) "atlan-wh")); simpl; lia. }
    clear E T.
    destruct (if snd (probe (world P s) "atlan-wh")
              then Returned ("atlan-wh", "atlan-wh")
              else if snd (probe (fst (probe (world P s) "atlan-wh")) "context_store")
                   then Returned ("context_store", "context_store")
                   else Raised (mk_exn "RuntimeError" "No valid Polaris catalog found"))
      as [found|e].
    + unfold bind, set_reader, do_load_catalog, call, log. cbn [world reader].
      destruct (load_catalog P _ (fst found) _) as [w1 [c|e]].
      * eexists _, _, _. split; [reflexivity|]. split.
        -- unfold catalogs_tried in *. rewrite !flat_map_app, !length_app. simpl. lia.
        -- intros _. exists c. reflexivity.
      * eexists _, _, _. split; [reflexivity|]. split; [|discriminate].
        unfold catalogs_tried in *. rewrite !flat_map_app, !length_app. simpl. lia.
    + eexists _, _, _. split; [reflexivity|]. split; [cbn [app]; lia|discriminate].
Qed.

Lemma list_namespaces_loads (s : state) :
  exists tr s' r,
    list_namespaces s = (tr, s', r)
    /\ (List.length (catalogs_tried tr) <= 3)%nat
    /\ (forall names, r = Returned names -> connected s').
Proof.
  unfold Databricks.list_namespaces. unfold bind at 1.
  destruct (connect_to_catalog_loads s) as (tr & s1 & r & E & Hlen & Hconn).
  rewrite E. destruct r as [[]|e].
  - destruct (Hconn eq_refl) as [c Hc].
    unfold bind at 1, self_catalog, bind at 1, get_reader. rewrite Hc.
    unfold ret at 1. unfold bind at 1, call.
    destruct (catalog_list_namespaces P (world P s1) c) as [w2 [nss|e]].
    + unfold bind at 1, log. rewrite for_each_lift_state.
      destruct (collect first_element nss) as [names|e];
        (eexists _, _, _; split; [reflexivity|]; split;
         [unfold catalogs_tried in *; rewrite !flat_map_app, !length_app; simpl; lia|]).
      * intros names' _. exists c. exact Hc.
      * discriminate.
    + eexists _, _, _. split; [reflexivity|]. split; [|discriminate].
      unfold catalogs_tried in *. rewrite !flat_map_app, !length_app. simpl. lia.
  - eexists _, _, _. split; [reflexivity|]. split; [exact Hlen|discriminate].
Qed.

(** X19: The catalog connection is made once and reused: from a state whose
    reader holds a catalog, the loop over the namespaces never calls
    [load_catalog], whatever fails on the way, and the reader still holds a
    catalog at the end; a whole run of [main] calls [load_catalog] at most
    three times, however many namespaces and tables there are. *)
Theorem catalog_loaded_once :
  (forall namespaces s,
      connected s ->
      catalogs_tried (trace_of (sync_namespaces namespaces s)) = []
      /\ connected (state_of (sync_namespaces namespaces s)))
  /\ (forall s,
        (List.length (catalogs_tried (trace_of (Databricks.main P environ s))) <= 3)%nat).
Proof.
  assert (Hloop : forall namespaces s,
             connected s ->
             catalogs_tried (trace_of (sync_namespaces namespaces s)) = []
             /\ connected (state_of (sync_namespaces namespaces s))).
  { intros namespaces s Hs.
    destruct (sc_for_ not_load_catalog sync_namespace namespaces
                sync_namespace_keeps_catalog s Hs) as [Ht Hc].
    split; [apply catalogs_tried_none; exact Ht|exact Hc]. }
  split; [exact Hloop|].
  intros s. rewrite main_run.
  destruct (spark_session P (world P s)) as [w1 [[]|e]]; [|simpl; lia].
  destruct (list_namespaces_loads (mk_state P w1 (mk_reader None None None)))
    as (tr & s2 & r & E & Hlen & Hconn).
  rewrite E. destruct r as [names|e]; [|unfold trace_of; simpl; exact Hlen].
  destruct (Hloop names s2 (Hconn names eq_refl)) as [Hnone _].
  unfold trace_of in Hnone.
  destruct (sync_namespaces names s2) as [[tr3 s3] [[]|e]];
    unfold trace_of; cbn [fst snd] in *.
  - change (List.length
              (catalogs_tried
                 (([EvLog InfoStarting; EvSparkSession] ++ tr ++ tr3)
                  ++ [EvLog InfoCompleted])) <= 3)%nat.
    rewrite !catalogs_tried_app, Hnone, !length_app. cbn [catalogs_tried flat_map app List.length]. lia.
  - change (List.length
              (catalogs_tried ([EvLog InfoStarting; EvSparkSession] ++ tr ++ tr3))
            <= 3)%nat.
    rewrite !catalogs_tried_app, Hnone, !length_app. cbn [catalogs_tried flat_map app List.length]. lia.
Qed.

(** *** The history flag *)

Lemma lower_is_true (v : string) :
  lower v = "true" <->
  exists a b c d,
    v = String a (String b (String c (String d EmptyString)))
    /\ (a = "t" \/ a = "T")%char /\ (b = "r" \/ b = "R")%char
    /\ (c = "u" \/ c = "U")%char /\ (d = "e" \/ d = "E")%char.
Proof.
  assert (Ht : forall a, lower_ascii a = "t"%char -> (a = "t" \/ a = "T")%char).
  { intros [[] [] [] [] [] [] [] []]; vm_compute; intros H;
      first [discriminate H | auto]. }
  assert (Hr : forall a, lower_ascii a = "r"%char -> (a = "r" \/ a = "R")%char).
  { intros [[] [] [] [] [] [] [] []]; vm_compute; intros H;
      first [discriminate H | auto]. }
  assert (Hu : forall a, lower_ascii a = "u"%char -> (a = "u" \/ a = "U")%char).
  { intros [[] [] [] [] [] [] [] []]; vm_compute; intros H;
      first [discriminate H | auto]. }
  assert (He : forall a, lower_ascii a = "e"%char -> (a = "e" \/ a = "E")%char).
  { intros [[] [] [] [] [] [] [] []]; vm_compute; intros H;
      first [discriminate H | auto]. }
  split.
  - destruct v as [|a [|b [|c [|d [|x rest]]]]]; simpl; intros H;
      try discriminate H.
    injection H as Ha Hb Hc Hd. exists a, b, c, d. split; [reflexivity|]. auto.
  - intros (a & b & c & d & -> & Ha & Hb & Hc & Hd).
    destruct Ha as [-> | ->], Hb as [-> | ->], Hc as [-> | ->], Hd as [-> | ->];
      reflexivity.
Qed.

(** X11: History sync is enabled exactly when the environment variable is set to
    the word true in any mix of upper and lower case: four characters, t, r,
    u, e.  Unset, or set to anything else (1, yes, true with a space), it is
    disabled. *)
Theorem history_flag_values :
  HISTORY_NAMESPACE_SYNC = true <->
  exists a b c d,
    environ "HISTORY_NAMESPACE_SYNC"
    = Some (String a (String b (String c (String d EmptyString))))
    /\ (a = "t" \/ a = "T")%char /\ (b = "r" \/ b = "R")%char
    /\ (c = "u" \/ c = "U")%char /\ (d = "e" \/ d = "E")%char.
Proof.
  unfold Databricks.HISTORY_NAMESPACE_SYNC, getenv.
  destruct (environ "HISTORY_NAMESPACE_SYNC") as [v|].
  - rewrite String.eqb_eq, lower_is_true. split.
    + intros (a & b & c & d & -> & H). exists a, b, c, d. auto.
    + intros (a & b & c & d & E & H). injection E as ->. exists a, b, c, d. auto.
  - split; [discriminate|]. intros (a & b & c & d & E & _). discriminate E.
Qed.

End Runs.

(** *** The sync on the sample platform *)

(** atlan-wh cannot be loaded there: the detection falls back. *)
Example detect_catalog_sample :
  result_of (detect_catalog sample_platform sample_environ sample_start)
  = Returned ("context_store", "context_store")
  /\ catalogs_tried (trace_of (detect_catalog sample_platform sample_environ sample_start))
     = ["atlan-wh"; "context_store"].
Proof. split; reflexivity. Qed.

(** The statements a whole run sends: nothing for atlan-history, only the
    schema statement for bad, schema and table for the two others. *)
Example main_sample :
  statements_of (trace_of (main sample_platform sample_environ sample_start))
  = [CreateSchema "entity_metadata";
     CreateTable "entity_metadata" "assets" "s3://lake/assets/v1.metadata.json";
     CreateSchema "bad";
     CreateSchema "gold";
     CreateTable "gold" "assets" "s3://lake/assets/v1.metadata.json"]
  /\ result_of (main sample_platform sample_environ sample_start) = Returned tt.
Proof. split; vm_compute; reflexivity. Qed.

Lemma schema_failure_skips_namespace_witness :
  let r1 := sync_namespaces sample_platform sample_environ ["entity_metadata"]
              sample_connected in
  let r2 := sync_namespaces sample_platform sample_environ ["gold"] sample_connected in
  let e := mk_exn "AnalysisException" "PERMISSION_DENIED" in
  result_of r1 = Returned tt
  /\ spark_sql sample_platform tt (statement_sql sample_environ (CreateSchema "bad"))
     = (tt, Raised e)
  /\ sync_namespaces sample_platform sample_environ ["entity_metadata"; "bad"; "gold"]
       sample_connected
     = (trace_of r1
        ++ [EvLog (InfoProcessing "bad"); EvSparkSql (CreateSchema "bad");
            EvLog (ErrorSchema "bad" e)]
        ++ trace_of r2,
        state_of r2, result_of r2)%list.
Proof.
  cbv zeta. split; [reflexivity|]. split; [reflexivity|].
  apply (proj1 (schema_failure_skips_namespace sample_platform sample_environ
                  ["entity_metadata"] ["gold"] "bad" sample_connected tt
                  (mk_exn "AnalysisException" "PERMISSION_DENIED")
                  eq_refl eq_refl)).
  reflexivity.
Defined.

Lemma history_namespace_not_synced_witness :
  HISTORY_NAMESPACE_SYNC sample_environ = false
  /\ Forall (fun st => statement_namespace st <> "atlan-history")
       (statements_of
          (trace_of
             (sync_namespaces sample_platform sample_environ
                ["entity_metadata"; "atlan-history"; "gold"] sample_connected)))
  /\ external_calls
       (trace_of
          (sync_namespaces sample_platform sample_environ
             ["entity_metadata"; "atlan-history"; "gold"] sample_connected))
     = external_calls
         (trace_of
            (sync_namespaces sample_platform sample_environ
               ["entity_metadata"; "gold"] sample_connected)).
Proof.
  split; [reflexivity|].
  destruct (history_namespace_not_synced sample_platform sample_environ
              ["entity_metadata"; "atlan-history"; "gold"] sample_connected eq_refl)
    as (H1 & H2 & _).
  split; [exact H1|exact H2].
Defined.

Lemma list_namespaces_normalizes_witness :
  exists names,
    result_of (list_namespaces sample_platform sample_environ sample_start)
    = Returned names
    /\ Forall2 normalized sample_namespaces names
    /\ List.length names = List.length sample_namespaces.
Proof.
  apply (list_namespaces_normalizes sample_platform sample_environ sample_start
           "context_store" tt sample_namespaces eq_refl eq_refl eq_refl).
  repeat constructor; discriminate.
Defined.

(** The names returned on the sample platform. *)
Example list_namespaces_sample :
  result_of (list_namespaces sample_platform sample_environ sample_start)
  = Returned ["entity_metadata"; "atlan-history"; "bad"; "gold"].
Proof. reflexivity. Qed.

Lemma missing_metadata_skips_table_witness :
  exists table_name,
    last_element ["gold"; "assets"] = Returned table_name
    /\ sync_table (sample_platform_with [] None) sample_environ "gold"
         ["gold"; "assets"]
         (mk_state (sample_platform_with [] None) tt
            (mk_reader (Some "context_store") None None))
       = ([EvLoadTable ["gold"; "assets"];
           EvLog (ErrorTable "gold" table_name
                    (mk_exn "ValueError" "No metadata location for ('gold', 'assets')"))],
          mk_state (sample_platform_with [] None) tt
            (mk_reader (Some "context_store") None None),
          Returned tt).
Proof.
  apply (missing_metadata_skips_table (sample_platform_with [] None) sample_environ
           "gold" ["gold"; "assets"]
           (mk_state (sample_platform_with [] None) tt
              (mk_reader (Some "context_store") None None))
           "context_store" tt (mk_table ["gold"; "assets"] None)
           eq_refl eq_refl (or_introl eq_refl)).
  discriminate.
Defined.

Lemma sample_identifiers_not_empty :
  forall w c namespace w' l,
    catalog_list_tables sample_platform w c namespace = (w', Returned l) ->
    Forall (fun t : Identifier => t <> []) l.
Proof.
  intros w c namespace w' l H. simpl in H. injection H as _ <-.
  repeat constructor. discriminate.
Qed.

Lemma sync_completes_witness :
  result_of
    (sync_namespaces sample_platform sample_environ ["entity_metadata"; "bad"; "gold"]
       sample_connected) = Returned tt
  /\ last (trace_of (main sample_platform sample_environ sample_start))
       (EvLog InfoStarting) = EvLog InfoCompleted.
Proof.
  destruct (sync_completes sample_platform sample_environ sample_identifiers_not_empty)
    as (H1 & _ & H3).
  split; [apply H1|apply H3; reflexivity].
Defined.

Lemma list_namespaces_empty_tuple_witness :
  result_of
    (list_namespaces (sample_platform_with [NsTuple ["a"]; NsTuple []] None)
       sample_environ
       (mk_state (sample_platform_with [NsTuple ["a"]; NsTuple []] None) tt
          (mk_reader None None None)))
  = Raised (mk_exn "IndexError" "tuple index out of range").
Proof.
  apply (list_namespaces_empty_tuple
           (sample_platform_with [NsTuple ["a"]; NsTuple []] None) sample_environ
           (mk_state (sample_platform_with [NsTuple ["a"]; NsTuple []] None) tt
              (mk_reader None None None))
           "context_store" tt [NsTuple ["a"]; NsTuple []] eq_refl eq_refl eq_refl).
  right. left. reflexivity.
Defined.

Lemma no_catalog_aborts_witness :
  result_of
    (main sample_platform_offline sample_environ
       (mk_state sample_platform_offline tt (mk_reader None None None)))
  = Raised (mk_exn "RuntimeError" "No valid Polaris catalog found")
  /\ statements_of
       (trace_of
          (main sample_platform_offline sample_environ
             (mk_state sample_platform_offline tt (mk_reader None None None)))) = [].
Proof.
  apply (no_catalog_aborts sample_platform_offline sample_environ
           (mk_state sample_platform_offline tt (mk_reader None None None)) tt
           eq_refl eq_refl eq_refl).
Defined.

(** A table identifier without elements ends the run: the namespace named
    empty lists one, and gold after it is never reached. *)
Example empty_identifier_aborts_sample :
  result_of
    (main (sample_platform_with [NsStr "empty"; NsStr "gold"] (Some "s3://m"))
       sample_environ
       (mk_state (sample_platform_with [NsStr "empty"; NsStr "gold"] (Some "s3://m")) tt
          (mk_reader None None None)))
  = Raised (mk_exn "IndexError" "tuple index out of range")
  /\ statements_of
       (trace_of
          (main (sample_platform_with [NsStr "empty"; NsStr "gold"] (Some "s3://m"))
             sample_environ
             (mk_state
                (sample_platform_with [NsStr "empty"; NsStr "gold"] (Some "s3://m")) tt
                (mk_reader None None None))))
     = [CreateSchema "empty"].
Proof. split; vm_compute; reflexivity. Qed.

End DatabricksFacts.
